(** * CBZ record service (app.py): players and their matches over SQLite

    A shallow embedding of [app.py]: the eight Flask view functions, written
    in a small state-and-exception monad over a model of the SQLite database
    file and of the connections opened on it, followed by the properties of
    the service.

    Scope of the model.
    - Request bodies are JSON objects whose values are scalars (null,
      booleans, numbers, strings).
    - Binding is taken to succeed: an integer outside 64 bits makes the
      sqlite3 module raise OverflowError, which lies outside the model. The
      properties that depend on it assume the integer in range ([int64],
      [bindable], [admissible]).
    - The store keeps the bound value of every parameter; the conversions of
      column affinity are not modelled. The properties that state what is
      stored or returned for a value of the request assume a value that the
      column keeps as bound ([kept], [typed]).
    - A statement or a commit may fail for reasons outside the program
      (I/O, locking): the world carries the faults that await the next
      storage calls. *)

From stdpp Require Import gmap strings list fin_maps.
From Stdlib Require Import ZArith QArith_base Lia.

Local Open Scope string_scope.
Local Open Scope Z_scope.
Local Open Scope list_scope.

(** ** Values *)

(** What [request.json] holds under a key. *)
Inductive pyval :=
| PNone
| PBool (b : bool)
| PInt (z : Z)
| PFloat (q : Q)
| PStr (s : string).

(** What a column holds. *)
Inductive sqlval :=
| VNull
| VInt (z : Z)
| VReal (q : Q)
| VText (s : string).

(** What [jsonify] serialises. *)
#[local] Unset Elimination Schemes.
Inductive json :=
| JNull
| JInt (z : Z)
| JReal (q : Q)
| JStr (s : string)
| JArr (items : list json)
| JObj (fields : list (string * json)).
#[local] Set Elimination Schemes.

(** Python truthiness, as tested by [if not name]. *)
Definition truthy (v : pyval) : bool :=
  match v with
  | PNone => false
  | PBool b => b
  | PInt z => negb (z =? 0)
  | PFloat q => negb (Qnum q =? 0)
  | PStr s => match s with EmptyString => false | String _ _ => true end
  end.

(** How the sqlite3 module binds a Python value to a [?]. For an integer
    outside 64 bits the module raises OverflowError instead; that case is kept
    out by [int64] in the properties. *)
Definition bind (v : pyval) : sqlval :=
  match v with
  | PNone => VNull
  | PBool b => VInt (if b then 1 else 0)
  | PInt z => VInt z
  | PFloat q => VReal q
  | PStr s => VText s
  end.

Definition json_of (v : sqlval) : json :=
  match v with
  | VNull => JNull
  | VInt z => JInt z
  | VReal q => JReal q
  | VText s => JStr s
  end.

Definition is_null (v : sqlval) : bool :=
  match v with VNull => true | _ => false end.

(** [data.get(k)] and [data.get(k, d)] on the request body. *)
Definition get (data : gmap string pyval) (k : string) : pyval :=
  default PNone (data !! k).

Definition get_or (data : gmap string pyval) (k : string) (d : pyval) : pyval :=
  default d (data !! k).

(** ** The schema of [init_db] *)

Record player_row := {
  p_id : Z;
  p_name : sqlval;
  p_role : sqlval;
  p_batting_style : sqlval;
  p_bowling_style : sqlval
}.

(** The nine columns of a match that a request can set. *)
Record match_stats := {
  did_bat : sqlval;
  runs : sqlval;
  balls : sqlval;
  wickets : sqlval;
  overs : sqlval;
  conceded : sqlval;
  catches : sqlval;
  stumpings : sqlval;
  run_outs : sqlval
}.

Record match_row := {
  m_id : Z;
  m_player_id : Z;
  m_stats : match_stats
}.

(** The database file: both tables in rowid order, and the two counters
    that AUTOINCREMENT keeps in [sqlite_sequence]. *)
Record db := {
  players : list player_row;
  matches : list match_row;
  seq_players : Z;
  seq_matches : Z
}.

Definition empty_db : db :=
  {| players := []; matches := []; seq_players := 0; seq_matches := 0 |}.

(** ** Statements and their execution *)

Inductive statement :=
| CreatePlayers
| CreateMatches
| InsertPlayer (name role batting_style bowling_style : sqlval)
| SelectPlayers
| SelectPlayerById (id : Z)
| SelectPlayerIdById (id : Z)
| SelectMatchesByPlayer (player_id : Z)
| SelectMatchById (id : Z)
| UpdatePlayer (name role batting_style bowling_style : sqlval) (id : Z)
| DeletePlayer (id : Z)
| InsertMatch (player_id : Z) (stats : match_stats)
| UpdateMatch (stats : match_stats) (id : Z)
| DeleteMatch (id : Z).

(** INSERT, UPDATE and DELETE open a transaction; the rest do not. *)
Definition is_write (s : statement) : bool :=
  match s with
  | InsertPlayer _ _ _ _ | UpdatePlayer _ _ _ _ _ | DeletePlayer _
  | InsertMatch _ _ | UpdateMatch _ _ | DeleteMatch _ => true
  | _ => false
  end.

(** A result row, as [sqlite3.Row] gives it. *)
Inductive row :=
| PlayerRow (p : player_row)
| MatchRow (m : match_row)
| IdRow (id : Z).

Record cursor := {
  rowcount : Z;
  lastrowid : Z;
  rows : list row
}.

Definition fetchone (c : cursor) : option row := head (rows c).
Definition fetchall (c : cursor) : list row := rows c.

Inductive result (A : Type) :=
| Ok (a : A)
| Failed (msg : string).
Arguments Ok {A} a.
Arguments Failed {A} msg.

(** The largest rowid SQLite can give. *)
Definition max_rowid : Z := 9223372036854775807.

Definition largest (ids : list Z) : Z := foldr Z.max 0 ids.

(** AUTOINCREMENT: one more than the largest rowid the table ever had,
    which is the larger of the counter and the largest rowid present. *)
Definition next_rowid (seq : Z) (ids : list Z) : result Z :=
  let top := Z.max seq (largest ids) in
  if top <? max_rowid then Ok (top + 1) else Failed "database or disk is full".

Definition has_player (id : Z) (d : db) : bool :=
  existsb (λ p, p_id p =? id) (players d).

Definition count_players (id : Z) (d : db) : Z :=
  Z.of_nat (length (List.filter (λ p, p_id p =? id) (players d))).

Definition count_matches (id : Z) (d : db) : Z :=
  Z.of_nat (length (List.filter (λ m, m_id m =? id) (matches d))).

Definition set_player (name role batting_style bowling_style : sqlval) (id : Z)
    (p : player_row) : player_row :=
  if p_id p =? id then
    {| p_id := p_id p; p_name := name; p_role := role;
       p_batting_style := batting_style; p_bowling_style := bowling_style |}
  else p.

Definition set_match (stats : match_stats) (id : Z) (m : match_row) : match_row :=
  if m_id m =? id then
    {| m_id := m_id m; m_player_id := m_player_id m; m_stats := stats |}
  else m.

Definition reads (l : list row) : cursor :=
  {| rowcount := -1; lastrowid := 0; rows := l |}.

Definition wrote (n : Z) : cursor :=
  {| rowcount := n; lastrowid := 0; rows := [] |}.

Definition inserted (id : Z) : cursor :=
  {| rowcount := 1; lastrowid := id; rows := [] |}.

(** One statement on the content [d] that a connection sees. [fk] is the
    connection's [PRAGMA foreign_keys]: only when it is on does the store act
    on the FOREIGN KEY clause of [matches]. Values are stored as they were
    bound, which is what SQLite does for the values [kept] names. *)
Definition run_statement (fk : bool) (d : db) (s : statement) : result (cursor * db) :=
  match s with
  | CreatePlayers | CreateMatches => Ok (reads [], d)
  | InsertPlayer name role batting_style bowling_style =>
      match next_rowid (seq_players d) (map p_id (players d)) with
      | Failed msg => Failed msg
      | Ok id =>
          if is_null name then Failed "NOT NULL constraint failed: players.name"
          else
            Ok (inserted id,
                {| players := players d ++
                     [{| p_id := id; p_name := name; p_role := role;
                         p_batting_style := batting_style;
                         p_bowling_style := bowling_style |}];
                   matches := matches d;
                   seq_players := id;
                   seq_matches := seq_matches d |})
      end
  | SelectPlayers => Ok (reads (map PlayerRow (players d)), d)
  | SelectPlayerById id =>
      Ok (reads (map PlayerRow (List.filter (λ p, p_id p =? id) (players d))), d)
  | SelectPlayerIdById id =>
      Ok (reads (map (λ p, IdRow (p_id p))
                   (List.filter (λ p, p_id p =? id) (players d))), d)
  | SelectMatchesByPlayer player_id =>
      Ok (reads (map MatchRow
                   (List.filter (λ m, m_player_id m =? player_id) (matches d))), d)
  | SelectMatchById id =>
      Ok (reads (map MatchRow (List.filter (λ m, m_id m =? id) (matches d))), d)
  | UpdatePlayer name role batting_style bowling_style id =>
      if has_player id d && is_null name
      then Failed "NOT NULL constraint failed: players.name"
      else
        Ok (wrote (count_players id d),
            {| players := map (set_player name role batting_style bowling_style id)
                              (players d);
               matches := matches d;
               seq_players := seq_players d;
               seq_matches := seq_matches d |})
  | DeletePlayer id =>
      Ok (wrote (count_players id d),
          {| players := List.filter (λ p, negb (p_id p =? id)) (players d);
             matches :=
               if fk
               then List.filter (λ m, negb (m_player_id m =? id)) (matches d)
               else matches d;
             seq_players := seq_players d;
             seq_matches := seq_matches d |})
  | InsertMatch player_id stats =>
      match next_rowid (seq_matches d) (map m_id (matches d)) with
      | Failed msg => Failed msg
      | Ok id =>
          if fk && negb (has_player player_id d)
          then Failed "FOREIGN KEY constraint failed"
          else
            Ok (inserted id,
                {| players := players d;
                   matches := matches d ++
                     [{| m_id := id; m_player_id := player_id; m_stats := stats |}];
                   seq_players := seq_players d;
                   seq_matches := id |})
      end
  | UpdateMatch stats id =>
      Ok (wrote (count_matches id d),
          {| players := players d;
             matches := map (set_match stats id) (matches d);
             seq_players := seq_players d;
             seq_matches := seq_matches d |})
  | DeleteMatch id =>
      Ok (wrote (count_matches id d),
          {| players := players d;
             matches := List.filter (λ m, negb (m_id m =? id)) (matches d);
             seq_players := seq_players d;
             seq_matches := seq_matches d |})
  end.

(** ** Connections and the world *)

(** An open connection: its foreign-key setting and the content of its
    transaction, if it has written since its last commit or rollback. *)
Record connection := {
  foreign_keys : bool;
  pending : option db
}.

(** The file, the open connections by handle, the next handle, and the
    faults awaiting the next statements and commits: [Some msg] makes the call
    raise [sqlite3.OperationalError msg], [None] lets it through. *)
Record world := {
  disk : db;
  conns : gmap nat connection;
  next_handle : nat;
  faults : list (option string)
}.

Definition with_disk (d : db) (w : world) : world :=
  {| disk := d; conns := conns w; next_handle := next_handle w; faults := faults w |}.

Definition with_conns (cs : gmap nat connection) (w : world) : world :=
  {| disk := disk w; conns := cs; next_handle := next_handle w; faults := faults w |}.

Definition with_faults (fs : list (option string)) (w : world) : world :=
  {| disk := disk w; conns := conns w; next_handle := next_handle w; faults := fs |}.

(** The storage calls a request makes, in order. *)
Inductive event :=
| Connect (h : nat)
| Execute (h : nat) (s : statement) (err : option string)
| Commit (h : nat) (err : option string)
| Rollback (h : nat)
| Close (h : nat).

(** Exceptions: [sqlite3.Error], which the views catch, and the rest. *)
Inductive exn :=
| SqliteError (msg : string)
| TypeError (msg : string).

Inductive outcome (A : Type) :=
| Done (a : A)
| Raise (e : exn).
Arguments Done {A} a.
Arguments Raise {A} e.

(** ** The monad of view functions *)

Definition M (A : Type) : Type := world → outcome A * world * list event.

#[global] Instance M_ret : MRet M := λ A a w, (Done a, w, []).

#[global] Instance M_bind : MBind M := λ A B f m w,
  match m w with
  | (Done a, w1, t1) =>
      match f a w1 with (r, w2, t2) => (r, w2, t1 ++ t2) end
  | (Raise e, w1, t1) => (Raise e, w1, t1)
  end.

Definition raise {A} (e : exn) : M A := λ w, (Raise e, w, []).

(** [try: body / except sqlite3.Error as e: on_error e / finally: final]. *)
Definition try_except_finally {A} (body : M A) (on_error : string → M A)
    (final : M unit) : M A := λ w,
  match body w with
  | (r, w1, t1) =>
      match
        match r with
        | Raise (SqliteError msg) => on_error msg w1
        | _ => (r, w1, [])
        end
      with
      | (r2, w2, t2) =>
          match final w2 with
          | (Done _, w3, t3) => (r2, w3, t1 ++ t2 ++ t3)
          | (Raise e, w3, t3) => (Raise e, w3, t1 ++ t2 ++ t3)
          end
      end
  end.

(** ** The sqlite3 module *)

(** SQLite leaves foreign-key enforcement off on a new connection. *)
Definition default_foreign_keys : bool := false.

Definition sqlite3_connect : M nat := λ w,
  let h := next_handle w in
  (Done h,
   {| disk := disk w;
      conns := <[h := {| foreign_keys := default_foreign_keys; pending := None |}]> (conns w);
      next_handle := S h;
      faults := faults w |},
   [Connect h]).

(** [PRAGMA foreign_keys = ON]; no view function issues it. *)
Definition enable_foreign_keys (h : nat) : M unit := λ w,
  (Done (),
   with_conns (alter (λ c, {| foreign_keys := true; pending := pending c |}) h (conns w)) w,
   []).

Definition closed_msg : string := "Cannot operate on a closed database.".

(** What the connection sees: its own transaction, or the file. *)
Definition view (w : world) (c : connection) : db :=
  default (disk w) (pending c).

(** The fault, if any, that the next statement or commit meets. *)
Definition fault_of (fs : list (option string)) : option string :=
  match fs with
  | Some msg :: _ => Some msg
  | _ => None
  end.

Definition execute (h : nat) (s : statement) : M cursor := λ w,
  match conns w !! h with
  | None => (Raise (SqliteError closed_msg), w, [Execute h s (Some closed_msg)])
  | Some c =>
      let w1 := with_faults (tail (faults w)) w in
      match fault_of (faults w) with
      | Some msg => (Raise (SqliteError msg), w1, [Execute h s (Some msg)])
      | None =>
          match run_statement (foreign_keys c) (view w c) s with
          | Failed msg => (Raise (SqliteError msg), w1, [Execute h s (Some msg)])
          | Ok (cur, d) =>
              (Done cur,
               if is_write s
               then with_conns
                      (<[h := {| foreign_keys := foreign_keys c; pending := Some d |}]>
                         (conns w1)) w1
               else w1,
               [Execute h s None])
          end
      end
  end.

Definition commit (h : nat) : M unit := λ w,
  match conns w !! h with
  | None => (Raise (SqliteError closed_msg), w, [Commit h (Some closed_msg)])
  | Some c =>
      let w1 := with_faults (tail (faults w)) w in
      match fault_of (faults w) with
      | Some msg => (Raise (SqliteError msg), w1, [Commit h (Some msg)])
      | None =>
          (Done (),
           with_disk (view w c)
             (with_conns
                (<[h := {| foreign_keys := foreign_keys c; pending := None |}]> (conns w1))
                w1),
           [Commit h None])
      end
  end.

Definition rollback (h : nat) : M unit := λ w,
  match conns w !! h with
  | None => (Raise (SqliteError closed_msg), w, [Rollback h])
  | Some c =>
      (Done (),
       with_conns (<[h := {| foreign_keys := foreign_keys c; pending := None |}]> (conns w)) w,
       [Rollback h])
  end.

(** Closing drops whatever the connection had not committed. *)
Definition close (h : nat) : M unit := λ w,
  (Done (), with_conns (delete h (conns w)) w, [Close h]).

(** ** Flask responses *)

(** What a view returns: a status, and a body when there is one. *)
Record response := {
  status : Z;
  payload : option json
}.

Definition jsonify (j : json) (code : Z) : response :=
  {| status := code; payload := Some j |}.

Definition message (s : string) : json := JObj [("message", JStr s)].
Definition error (s : string) : json := JObj [("error", JStr s)].

Definition player_columns (p : player_row) : list (string * sqlval) :=
  [("id", VInt (p_id p)); ("name", p_name p); ("role", p_role p);
   ("batting_style", p_batting_style p); ("bowling_style", p_bowling_style p)].

Definition stats_columns (s : match_stats) : list (string * sqlval) :=
  [("did_bat", did_bat s); ("runs", runs s); ("balls", balls s);
   ("wickets", wickets s); ("overs", overs s); ("conceded", conceded s);
   ("catches", catches s); ("stumpings", stumpings s); ("run_outs", run_outs s)].

Definition match_columns (m : match_row) : list (string * sqlval) :=
  [("id", VInt (m_id m)); ("player_id", VInt (m_player_id m))]
  ++ stats_columns (m_stats m).

Definition columns (r : row) : list (string * sqlval) :=
  match r with
  | PlayerRow p => player_columns p
  | MatchRow m => match_columns m
  | IdRow id => [("id", VInt id)]
  end.

Definition row_id (r : row) : Z :=
  match r with
  | PlayerRow p => p_id p
  | MatchRow m => m_id m
  | IdRow id => id
  end.

(** [dict(row)]: the columns by name. *)
Definition dict (r : row) : list (string * json) :=
  map (λ kv, (kv.1, json_of kv.2)) (columns r).

(** [dict(...fetchone())]: [dict(None)] is a TypeError. *)
Definition dict_of (r : option row) : M (list (string * json)) :=
  match r with
  | Some r => mret (dict r)
  | None => raise (TypeError "'NoneType' object is not iterable")
  end.

(** ** app.py *)

Definition get_db_connection : M nat := sqlite3_connect.

Definition init_db : M unit :=
  conn ← get_db_connection;
  execute conn CreatePlayers;;
  execute conn CreateMatches;;
  commit conn;;
  close conn.

Definition add_player (data : gmap string pyval) : M response :=
  let name := get data "name" in
  if negb (truthy name) then mret (jsonify (error "Player name is required") 400)
  else
    conn ← get_db_connection;
    try_except_finally
      (cursor ← execute conn
         (InsertPlayer (bind name) (bind (get data "role"))
            (bind (get data "batting_style")) (bind (get data "bowling_style")));
       commit conn;;
       let player_id := lastrowid cursor in
       conn2 ← get_db_connection;
       found ← execute conn2 (SelectPlayerById player_id);
       new_player ← dict_of (fetchone found);
       mret (jsonify (JObj new_player) 201))
      (λ e, rollback conn;; mret (jsonify (error e) 500))
      (close conn).

(** The loop of [get_players]: one query per player, on the same connection. *)
Fixpoint with_matches (conn : nat) (players_data : list row) : M (list json) :=
  match players_data with
  | [] => mret []
  | player_row :: rest =>
      let player := dict player_row in
      matches_data ← execute conn (SelectMatchesByPlayer (row_id player_row));
      let player :=
        player ++ [("matches", JArr (map (λ m, JObj (dict m)) (fetchall matches_data)))] in
      players_list ← with_matches conn rest;
      mret (JObj player :: players_list)
  end.

Definition get_players : M response :=
  conn ← get_db_connection;
  players_data ← execute conn SelectPlayers;
  players_list ← with_matches conn (fetchall players_data);
  close conn;;
  mret (jsonify (JArr players_list) 200).

Definition get_player (player_id : Z) : M response :=
  conn ← get_db_connection;
  found ← execute conn (SelectPlayerById player_id);
  match fetchone found with
  | None =>
      close conn;;
      mret (jsonify (message "Player not found") 404)
  | Some player =>
      let player_dict := dict player in
      matches_data ← execute conn (SelectMatchesByPlayer player_id);
      let player_dict :=
        player_dict ++
        [("matches", JArr (map (λ m, JObj (dict m)) (fetchall matches_data)))] in
      close conn;;
      mret (jsonify (JObj player_dict) 200)
  end.

Definition update_player (player_id : Z) (data : gmap string pyval) : M response :=
  conn ← get_db_connection;
  try_except_finally
    (cursor ← execute conn
       (UpdatePlayer (bind (get data "name")) (bind (get data "role"))
          (bind (get data "batting_style")) (bind (get data "bowling_style"))
          player_id);
     commit conn;;
     if rowcount cursor =? 0 then mret (jsonify (message "Player not found") 404)
     else
       found ← execute conn (SelectPlayerById player_id);
       updated_player ← dict_of (fetchone found);
       mret (jsonify (JObj updated_player) 200))
    (λ e, rollback conn;; mret (jsonify (error e) 500))
    (close conn).

Definition delete_player (player_id : Z) : M response :=
  conn ← get_db_connection;
  try_except_finally
    (cursor ← execute conn (DeletePlayer player_id);
     commit conn;;
     if rowcount cursor =? 0 then mret (jsonify (message "Player not found") 404)
     else mret (jsonify (message "Player deleted successfully") 204))
    (λ e, rollback conn;; mret (jsonify (error e) 500))
    (close conn).

Definition add_match_for_player (player_id : Z) (data : gmap string pyval) : M response :=
  conn ← get_db_connection;
  found ← execute conn (SelectPlayerIdById player_id);
  match fetchone found with
  | None =>
      close conn;;
      mret (jsonify (message "Player not found") 404)
  | Some player =>
      try_except_finally
        (cursor ← execute conn
           (InsertMatch player_id
              {| did_bat := bind (get_or data "did_bat" (PBool false));
                 runs := bind (get_or data "runs" (PInt 0));
                 balls := bind (get_or data "balls" (PInt 0));
                 wickets := bind (get_or data "wickets" (PInt 0));
                 overs := bind (get_or data "overs" (PFloat (0 # 1)));
                 conceded := bind (get_or data "conceded" (PInt 0));
                 catches := bind (get_or data "catches" (PInt 0));
                 stumpings := bind (get_or data "stumpings" (PInt 0));
                 run_outs := bind (get_or data "run_outs" (PInt 0)) |});
         commit conn;;
         let match_id := lastrowid cursor in
         conn2 ← get_db_connection;
         found ← execute conn2 (SelectMatchById match_id);
         new_match ← dict_of (fetchone found);
         mret (jsonify (JObj new_match) 201))
        (λ e, rollback conn;; mret (jsonify (error e) 500))
        (close conn)
  end.

Definition update_match (match_id : Z) (data : gmap string pyval) : M response :=
  conn ← get_db_connection;
  try_except_finally
    (cursor ← execute conn
       (UpdateMatch
          {| did_bat := bind (get data "did_bat");
             runs := bind (get data "runs");
             balls := bind (get data "balls");
             wickets := bind (get data "wickets");
             overs := bind (get data "overs");
             conceded := bind (get data "conceded");
             catches := bind (get data "catches");
             stumpings := bind (get data "stumpings");
             run_outs := bind (get data "run_outs") |}
          match_id);
     commit conn;;
     if rowcount cursor =? 0 then mret (jsonify (message "Match not found") 404)
     else
       found ← execute conn (SelectMatchById match_id);
       updated_match ← dict_of (fetchone found);
       mret (jsonify (JObj updated_match) 200))
    (λ e, rollback conn;; mret (jsonify (error e) 500))
    (close conn).

Definition delete_match (match_id : Z) : M response :=
  conn ← get_db_connection;
  try_except_finally
    (cursor ← execute conn (DeleteMatch match_id);
     commit conn;;
     if rowcount cursor =? 0 then mret (jsonify (message "Match not found") 404)
     else mret (jsonify (message "Match deleted successfully") 204))
    (λ e, rollback conn;; mret (jsonify (error e) 500))
    (close conn).

(** The routes. *)
Inductive request :=
| POST_players (data : gmap string pyval)
| GET_players
| GET_player (player_id : Z)
| PUT_player (player_id : Z) (data : gmap string pyval)
| DELETE_player (player_id : Z)
| POST_player_matches (player_id : Z) (data : gmap string pyval)
| PUT_match (match_id : Z) (data : gmap string pyval)
| DELETE_match (match_id : Z).

Definition route (r : request) : M response :=
  match r with
  | POST_players data => add_player data
  | GET_players => get_players
  | GET_player player_id => get_player player_id
  | PUT_player player_id data => update_player player_id data
  | DELETE_player player_id => delete_player player_id
  | POST_player_matches player_id data => add_match_for_player player_id data
  | PUT_match match_id data => update_match match_id data
  | DELETE_match match_id => delete_match match_id
  end.

(** A world with nothing open and no fault awaiting. *)
Definition quiet (d : db) : world :=
  {| disk := d; conns := ∅; next_handle := 0; faults := [] |}.

(** * Notions used by the properties *)

(** ** Rows by id *)

Definition player_exists (id : Z) (d : db) : Prop :=
  ∃ p, In p (players d) ∧ p_id p = id.

Definition match_exists (id : Z) (d : db) : Prop :=
  ∃ m, In m (matches d) ∧ m_id m = id.

(** ** Values the store takes as bound *)

(** The integers SQLite holds. The sqlite3 module raises OverflowError when
    it binds an integer outside them, and no view catches that error; the
    properties that run a statement on an id or a value of the request state
    that it is in range. *)
Definition int64 (z : Z) : bool := (- 2 ^ 63 <=? z) && (z <? 2 ^ 63).

(** The column affinities of the schema of [init_db]. *)
Inductive affinity := TEXT | INTEGER | REAL | NUMERIC.

(** The values that a column of each affinity stores as they were bound:
    NULL anywhere, a string in a TEXT column, a boolean or an integer in range
    in an INTEGER or NUMERIC column, a real in a REAL column. SQLite converts
    others on the way in (5 becomes '5' in a TEXT column, 4 becomes 4.0 in a
    REAL column, '50' becomes 50 in an INTEGER column), which [run_statement]
    does not follow. *)
Definition kept (a : affinity) (v : pyval) : bool :=
  match v with
  | PNone => true
  | PStr _ => match a with TEXT => true | _ => false end
  | PBool _ => match a with INTEGER | NUMERIC => true | _ => false end
  | PInt z => match a with INTEGER | NUMERIC => int64 z | _ => false end
  | PFloat _ => match a with REAL => true | _ => false end
  end.

Definition player_affinities : list (string * affinity) :=
  [("name", TEXT); ("role", TEXT); ("batting_style", TEXT);
   ("bowling_style", TEXT)].

Definition match_affinities : list (string * affinity) :=
  [("did_bat", NUMERIC); ("runs", INTEGER); ("balls", INTEGER);
   ("wickets", INTEGER); ("overs", REAL); ("conceded", INTEGER);
   ("catches", INTEGER); ("stumpings", INTEGER); ("run_outs", INTEGER)].

(** A body whose values, under the keys of the given columns, are stored as
    bound. *)
Definition typed (cols : list (string * affinity)) (data : gmap string pyval) : bool :=
  forallb (λ ka, match data !! ka.1 with
                 | Some v => kept ka.2 v
                 | None => true
                 end) cols.

(** A body whose integers, under the given keys, are in range. *)
Definition bindable (keys : list string) (data : gmap string pyval) : bool :=
  forallb (λ k, match data !! k with
                | Some (PInt z) => int64 z
                | _ => true
                end) keys.


(** ** The response on the wire *)

(** Werkzeug sends no body with a 1xx, 204 or 304 status, whatever the view
    put in the response. *)
Definition no_body_status (code : Z) : bool :=
  ((100 <=? code) && (code <? 200)) || (code =? 204) || (code =? 304).

(** The body of the HTTP response. *)
Definition sent_body (r : response) : option json :=
  if no_body_status (status r) then None else payload r.

(** ** Updates and deletes by id *)

(** The statement that an update or delete by id issues, and the message of
    its 404. *)
Definition mutation (r : request) : option (statement * string) :=
  match r with
  | PUT_player player_id data =>
      Some (UpdatePlayer (bind (get data "name")) (bind (get data "role"))
              (bind (get data "batting_style")) (bind (get data "bowling_style"))
              player_id,
            "Player not found")
  | DELETE_player player_id => Some (DeletePlayer player_id, "Player not found")
  | PUT_match match_id data =>
      Some (UpdateMatch
              {| did_bat := bind (get data "did_bat");
                 runs := bind (get data "runs");
                 balls := bind (get data "balls");
                 wickets := bind (get data "wickets");
                 overs := bind (get data "overs");
                 conceded := bind (get data "conceded");
                 catches := bind (get data "catches");
                 stumpings := bind (get data "stumpings");
                 run_outs := bind (get data "run_outs") |}
              match_id,
            "Match not found")
  | DELETE_match match_id => Some (DeleteMatch match_id, "Match not found")
  | _ => None
  end.


(** ** Storage errors *)

Definition is_write_execution (ev : event) : bool :=
  match ev with
  | Execute _ s _ => is_write s
  | _ => false
  end.

(** The executions of INSERT, UPDATE and DELETE among the calls of a request. *)
Definition write_executions (t : list event) : list event :=
  List.filter is_write_execution t.

(** The storage call that failed with [e] on connection [h]: the write
    statement, or its commit. *)
Definition write_failed (h : nat) (e : string) (t : list event) : Prop :=
  (∃ s, is_write s = true ∧ In (Execute h s (Some e)) t) ∨ In (Commit h (Some e)) t.

Definition reads_only (conn : nat) (ev : event) : Prop :=
  ∃ s err, ev = Execute conn s err ∧ is_write s = false.

(** ** Updating a match *)

(** What an update may do to a match row: keep its id and its player, and
    leave it whole unless it is the row addressed. *)
Definition keeps_keys (match_id : Z) (m m' : match_row) : Prop :=
  m_id m' = m_id m
  ∧ m_player_id m' = m_player_id m
  ∧ (m_id m ≠ match_id → m' = m).

(** ** Match fields absent from the body *)

(** The defaults of POST /players/{id}/matches, as documented. *)
Definition documented_defaults : list (string * pyval) :=
  [("did_bat", PBool false); ("runs", PInt 0); ("balls", PInt 0);
   ("wickets", PInt 0); ("overs", PFloat (0 # 1)); ("conceded", PInt 0);
   ("catches", PInt 0); ("stumpings", PInt 0); ("run_outs", PInt 0)].

(** The value of a column in a row, by name. *)
Definition column (k : string) (cols : list (string * sqlval)) : option sqlval :=
  snd <$> List.find (λ kv, String.eqb kv.1 k) cols.

(** Room for one more rowid in [matches]. *)
Definition room_for_match (d : db) : Prop :=
  Z.max (seq_matches d) (largest (map m_id (matches d))) < max_rowid.

(** ** Ids over a run of requests *)

(** The world after a run of requests, one after the other. *)
Fixpoint serve (reqs : list request) (w : world) : world :=
  match reqs with
  | [] => w
  | req :: rest => serve rest (route req w).1.2
  end.

Definition player_ids (d : db) : list Z := map p_id (players d).
Definition match_ids (d : db) : list Z := map m_id (matches d).

(** What SQLite maintains between a table and its AUTOINCREMENT counter: no
    rowid in the table is above the counter. *)
Definition bounded (d : db) : Prop :=
  (∀ x, In x (player_ids d) → x ≤ seq_players d)
  ∧ (∀ x, In x (match_ids d) → x ≤ seq_matches d).

(** One statement, as far as ids go: the counters do not go down, and an id
    that was not in the table before lies above the counter as it was and not
    above the counter as it is. *)
Definition ids_step (d d' : db) : Prop :=
  seq_players d ≤ seq_players d'
  ∧ seq_matches d ≤ seq_matches d'
  ∧ (∀ x, In x (player_ids d') →
          In x (player_ids d) ∨ (seq_players d < x ∧ x ≤ seq_players d'))
  ∧ (∀ x, In x (match_ids d') →
          In x (match_ids d) ∨ (seq_matches d < x ∧ x ≤ seq_matches d')).

(** ** Example stores and bodies *)

Definition rahul : gmap string pyval := {[ "name" := PStr "Rahul" ]}.

Definition innings : gmap string pyval :=
  <[ "runs" := PInt 50 ]> {[ "balls" := PInt 40 ]}.

Definition rahul_row : player_row :=
  {| p_id := 1; p_name := VText "Rahul"; p_role := VNull;
     p_batting_style := VNull; p_bowling_style := VNull |}.

Definition innings_row : match_row :=
  {| m_id := 1; m_player_id := 1;
     m_stats :=
       {| did_bat := VInt 0; runs := VInt 50; balls := VInt 40; wickets := VInt 0;
          overs := VReal (0 # 1); conceded := VInt 0; catches := VInt 0;
          stumpings := VInt 0; run_outs := VInt 0 |} |}.

Definition one_player : db :=
  {| players := [rahul_row]; matches := []; seq_players := 1; seq_matches := 0 |}.

Definition one_match : db :=
  {| players := [rahul_row]; matches := [innings_row];
     seq_players := 1; seq_matches := 1 |}.

(** A world whose next storage call fails. *)
Definition failing (d : db) (msg : string) : world :=
  {| disk := d; conns := ∅; next_handle := 0; faults := [Some msg] |}.

(** ** Reading players *)

(** The matches of a player, as a query by [player_id] returns them. *)
Definition matches_of (player_id : Z) (d : db) : list match_row :=
  List.filter (λ m, m_player_id m =? player_id) (matches d).

(** A player as [get_player] and [get_players] show it: its columns, then
    its matches under the key [matches]. *)
Definition player_with_matches (d : db) (p : player_row) : json :=
  JObj (dict (PlayerRow p) ++
        [("matches",
          JArr (map (λ m, JObj (dict (MatchRow m))) (matches_of (p_id p) d)))]).

(** Room for one more rowid in [players]. *)
Definition room_for_player (d : db) : Prop :=
  Z.max (seq_players d) (largest (map p_id (players d))) < max_rowid.

(** The row that POST /players stores for a body, under a given id. *)
Definition new_player (id : Z) (data : gmap string pyval) : player_row :=
  {| p_id := id;
     p_name := bind (get data "name");
     p_role := bind (get data "role");
     p_batting_style := bind (get data "batting_style");
     p_bowling_style := bind (get data "bowling_style") |}.

(** The row that POST /players/{id}/matches stores for a body, under a given
    id. *)
Definition new_match (id player_id : Z) (data : gmap string pyval) : match_row :=
  {| m_id := id;
     m_player_id := player_id;
     m_stats :=
       {| did_bat := bind (get_or data "did_bat" (PBool false));
          runs := bind (get_or data "runs" (PInt 0));
          balls := bind (get_or data "balls" (PInt 0));
          wickets := bind (get_or data "wickets" (PInt 0));
          overs := bind (get_or data "overs" (PFloat (0 # 1)));
          conceded := bind (get_or data "conceded" (PInt 0));
          catches := bind (get_or data "catches" (PInt 0));
          stumpings := bind (get_or data "stumpings" (PInt 0));
          run_outs := bind (get_or data "run_outs" (PInt 0)) |} |}.

(** The names of the nine settable columns of a match. *)
Definition settable : list string := map fst documented_defaults.

(** ** What a store keeps over a run *)

(** Ids are unique in each table and lie under the counters, and no match
    names a player above the players counter. *)
Definition well_formed (d : db) : Prop :=
  bounded d
  ∧ NoDup (player_ids d)
  ∧ NoDup (match_ids d)
  ∧ (∀ m, In m (matches d) → m_player_id m ≤ seq_players d).

(** The statements the views issue: an INSERT into [matches] names a player
    that is there. *)
Definition issued (d : db) (s : statement) : Prop :=
  match s with
  | InsertMatch player_id _ => player_exists player_id d
  | _ => True
  end.

(** What a route leaves of the file: a read leaves all of it, a route on
    players leaves [matches] and its counter, a route on matches leaves
    [players] and its counter. *)
Definition untouched (r : request) (d d' : db) : Prop :=
  match r with
  | GET_players | GET_player _ => d' = d
  | POST_players _ | PUT_player _ _ | DELETE_player _ =>
      matches d' = matches d ∧ seq_matches d' = seq_matches d
  | POST_player_matches _ _ | PUT_match _ _ | DELETE_match _ =>
      players d' = players d ∧ seq_players d' = seq_players d
  end.

(** * Properties *)

Arguments with_disk _ _ /.
Arguments with_conns _ _ /.
Arguments with_faults _ _ /.
Arguments view _ _ /.
Arguments reads _ /.
Arguments wrote _ /.
Arguments inserted _ /.
Arguments fetchone _ /.
Arguments fetchall _ /.

(** ** Running the calls of a view on an open connection *)

Lemma execute_open h c s w :
  conns w !! h = Some c →
  execute h s w =
  let w1 := with_faults (tail (faults w)) w in
  match fault_of (faults w) with
  | Some msg => (Raise (SqliteError msg), w1, [Execute h s (Some msg)])
  | None =>
      match run_statement (foreign_keys c) (view w c) s with
      | Failed msg => (Raise (SqliteError msg), w1, [Execute h s (Some msg)])
      | Ok (cur, d) =>
          (Done cur,
           if is_write s
           then with_conns
                  (<[h := {| foreign_keys := foreign_keys c; pending := Some d |}]>
                     (conns w1)) w1
           else w1,
           [Execute h s None])
      end
  end.
Proof. intros H. unfold execute. rewrite H. reflexivity. Qed.

Lemma commit_open h c w :
  conns w !! h = Some c →
  commit h w =
  let w1 := with_faults (tail (faults w)) w in
  match fault_of (faults w) with
  | Some msg => (Raise (SqliteError msg), w1, [Commit h (Some msg)])
  | None =>
      (Done (),
       with_disk (view w c)
         (with_conns
            (<[h := {| foreign_keys := foreign_keys c; pending := None |}]> (conns w1))
            w1),
       [Commit h None])
  end.
Proof. intros H. unfold commit. rewrite H. reflexivity. Qed.

Lemma rollback_open h c w :
  conns w !! h = Some c →
  rollback h w =
  (Done (),
   with_conns (<[h := {| foreign_keys := foreign_keys c; pending := None |}]> (conns w)) w,
   [Rollback h]).
Proof. intros H. unfold rollback. rewrite H. reflexivity. Qed.

Ltac open_handle :=
  cbn; repeat (rewrite lookup_insert_ne by lia); apply lookup_insert_eq.

Ltac call :=
  first
    [ erewrite execute_open by open_handle
    | erewrite commit_open by open_handle
    | erewrite rollback_open by open_handle ].

Ltac unfold_monad :=
  unfold mbind, M_bind, mret, M_ret, try_except_finally, get_db_connection,
    sqlite3_connect, close, dict_of, raise.

Ltac unfold_views :=
  unfold add_player, get_players, get_player, update_player, delete_player,
    add_match_for_player, update_match, delete_match.

Ltac run := repeat (progress cbn || call).

Ltac case_fault :=
  match goal with
  | |- context [match fault_of ?fs with _ => _ end] => destruct (fault_of fs) eqn:?
  end.

Ltac case_if :=
  match goal with
  | |- context [if ?b then _ else _] => destruct b eqn:?
  end.

Ltac case_rowid :=
  match goal with
  | |- context [match next_rowid ?n ?l with _ => _ end] =>
      destruct (next_rowid n l) eqn:?
  end.

Ltac case_rows :=
  match goal with
  | |- context [head (map _ (List.filter ?f ?l))] =>
      destruct (List.filter f l) eqn:?
  end.

Ltac explore := run; repeat (first [case_fault | case_rowid | case_if | case_rows]; run).

(** ** Rows by id *)

Lemma filter_none {A} (f : A → bool) (l : list A) :
  (∀ x, In x l → f x = false) → List.filter f l = [].
Proof.
  induction l as [|a l IH]; intros H; [reflexivity|].
  cbn. rewrite (H a) by (left; reflexivity).
  apply IH. intros x Hx. apply H. right; exact Hx.
Qed.



Lemma no_player_rows id d :
  ¬ player_exists id d → List.filter (λ p, p_id p =? id) (players d) = [].
Proof.
  intros H. apply filter_none. intros p Hp.
  apply Z.eqb_neq. intros E. apply H. exists p. auto.
Qed.

Lemma no_match_rows id d :
  ¬ match_exists id d → List.filter (λ m, m_id m =? id) (matches d) = [].
Proof.
  intros H. apply filter_none. intros m Hm.
  apply Z.eqb_neq. intros E. apply H. exists m. auto.
Qed.

Lemma some_player_rows id d :
  player_exists id d →
  ∃ p rest, List.filter (λ p, p_id p =? id) (players d) = p :: rest ∧ p_id p = id.
Proof.
  intros (p & Hp & E).
  assert (Hin : In p (List.filter (λ p, p_id p =? id) (players d))).
  { apply filter_In. split; [exact Hp | apply Z.eqb_eq; exact E]. }
  destruct (List.filter _ (players d)) as [|q rest] eqn:F; [destruct Hin|].
  exists q, rest. split; [reflexivity|].
  assert (Hq : In q (List.filter (λ p, p_id p =? id) (players d))) by (rewrite F; left; reflexivity).
  apply filter_In in Hq. apply Z.eqb_eq. apply Hq.
Qed.

Lemma some_match_rows id d :
  match_exists id d →
  ∃ m rest, List.filter (λ m, m_id m =? id) (matches d) = m :: rest ∧ m_id m = id.
Proof.
  intros (m & Hm & E).
  assert (Hin : In m (List.filter (λ m, m_id m =? id) (matches d))).
  { apply filter_In. split; [exact Hm | apply Z.eqb_eq; exact E]. }
  destruct (List.filter _ (matches d)) as [|q rest] eqn:F; [destruct Hin|].
  exists q, rest. split; [reflexivity|].
  assert (Hq : In q (List.filter (λ m, m_id m =? id) (matches d))) by (rewrite F; left; reflexivity).
  apply filter_In in Hq. apply Z.eqb_eq. apply Hq.
Qed.



Lemma filter_set_player name role bs bw id l :
  List.filter (λ p, p_id p =? id) (map (set_player name role bs bw id) l) =
  map (λ _, {| p_id := id; p_name := name; p_role := role;
               p_batting_style := bs; p_bowling_style := bw |})
      (List.filter (λ p, p_id p =? id) l).
Proof.
  induction l as [|a l IH]; [reflexivity|].
  cbn [map List.filter].
  destruct (p_id a =? id) eqn:E.
  - replace (set_player name role bs bw id a) with
      {| p_id := id; p_name := name; p_role := role;
         p_batting_style := bs; p_bowling_style := bw |}
      by (unfold set_player; rewrite E; apply Z.eqb_eq in E; rewrite E; reflexivity).
    cbn [p_id map]. rewrite Z.eqb_refl, IH. reflexivity.
  - replace (set_player name role bs bw id a) with a
      by (unfold set_player; rewrite E; reflexivity).
    rewrite E, IH. reflexivity.
Qed.

Lemma filter_set_match stats id l :
  List.filter (λ m, m_id m =? id) (map (set_match stats id) l) =
  map (λ m, {| m_id := id; m_player_id := m_player_id m; m_stats := stats |})
      (List.filter (λ m, m_id m =? id) l).
Proof.
  induction l as [|a l IH]; [reflexivity|].
  cbn [map List.filter].
  destruct (m_id a =? id) eqn:E.
  - replace (set_match stats id a) with
      {| m_id := id; m_player_id := m_player_id a; m_stats := stats |}
      by (unfold set_match; rewrite E; apply Z.eqb_eq in E; rewrite E; reflexivity).
    cbn [m_id map]. rewrite Z.eqb_refl, IH. reflexivity.
  - replace (set_match stats id a) with a
      by (unfold set_match; rewrite E; reflexivity).
    rewrite E, IH. reflexivity.
Qed.



Lemma has_player_exists id d : player_exists id d → has_player id d = true.
Proof.
  intros (p & Hp & E). unfold has_player. apply existsb_exists.
  exists p. split; [exact Hp | apply Z.eqb_eq; exact E].
Qed.

Lemma of_nat_S_eqb n : (Z.of_nat (S n) =? 0) = false.
Proof. apply Z.eqb_neq. lia. Qed.

Lemma room_next_rowid d :
  room_for_match d →
  next_rowid (seq_matches d) (map m_id (matches d)) =
    Ok (Z.max (seq_matches d) (largest (map m_id (matches d))) + 1).
Proof.
  unfold room_for_match, next_rowid. intros H.
  apply Z.ltb_lt in H. rewrite H. reflexivity.
Qed.

Lemma largest_ge ids x : In x ids → x ≤ largest ids.
Proof.
  unfold largest.
  induction ids as [|a ids IH]; intros H; [destruct H|].
  cbn [foldr]. destruct H as [->|H]; [lia|]. specialize (IH H). lia.
Qed.

Lemma filter_fresh_match id l m :
  m_id m = id → (∀ x, In x l → m_id x < id) →
  List.filter (λ m, m_id m =? id) (l ++ [m]) = [m].
Proof.
  intros E H. rewrite List.filter_app. rewrite filter_none.
  - cbn. rewrite E, Z.eqb_refl. reflexivity.
  - intros x Hx. apply Z.eqb_neq. specialize (H x Hx). lia.
Qed.

Lemma in_updated_matches stats id l m :
  In m (map (set_match stats id) l) → m_id m = id → m_stats m = stats.
Proof.
  rewrite in_map_iff. intros (m0 & <- & _). unfold set_match.
  destruct (m_id m0 =? id) eqn:E; cbn; [reflexivity|].
  intros N. apply Z.eqb_neq in E. contradiction.
Qed.

(** ** The loop of the listing *)

Lemma with_matches_reads conn c players_data w :
  conns w !! conn = Some c →
  ∃ r w' t,
    with_matches conn players_data w = (r, w', t)
    ∧ disk w' = disk w ∧ conns w' = conns w ∧ Forall (reads_only conn) t.
Proof.
  revert w. induction players_data as [|player_row rest IH]; intros w Hc.
  - eexists _, _, _. split; [reflexivity|]. repeat split; constructor.
  - cbn [with_matches]. unfold_monad.
    rewrite (execute_open _ _ _ _ Hc). cbn.
    destruct (fault_of (faults w)).
    + eexists _, _, _. split; [reflexivity|]. repeat split.
      repeat constructor. eexists _, _. split; reflexivity.
    + destruct (IH {| disk := disk w; conns := conns w; next_handle := next_handle w;
                      faults := tail (faults w) |} Hc) as (r & w' & t & E & Hd & Hcs & Ht).
      unfold mbind, M_bind in E |- *. rewrite E. 
      destruct r; eexists _, _, _; (split; [reflexivity|]); cbn;
        (repeat split; [exact Hd | exact Hcs |]);
        (constructor; [eexists _, _; split; reflexivity|]);
        rewrite ?app_nil_r; exact Ht.
Qed.

(** * The service *)

(** ** Creating a match under an unknown player *)

(** C2. When no player row has the given id, the id is one SQLite can
    bind and the existence query goes through, POST /players/{id}/matches
    answers 404 with a message body; the only statement it runs is that
    query, so no INSERT is issued and the store is as before. *)
Theorem add_match_unknown_player (player_id : Z) (data : gmap string pyval)
    (w : world) :
  int64 player_id = true →
  ¬ player_exists player_id (disk w) →
  fault_of (faults w) = None →
  ∃ w',
    add_match_for_player player_id data w =
      (Done (jsonify (message "Player not found") 404), w',
       [Connect (next_handle w);
        Execute (next_handle w) (SelectPlayerIdById player_id) None;
        Close (next_handle w)])
    ∧ disk w' = disk w.
Proof.
  intros _ Hno Hf. unfold add_match_for_player. unfold_monad. run.
  rewrite Hf. run. rewrite (no_player_rows _ _ Hno). run.
  eexists. split; reflexivity.
Qed.

Lemma add_match_unknown_player_witness :
  int64 7 = true
  ∧ ¬ player_exists 7 (disk (quiet empty_db))
  ∧ fault_of (faults (quiet empty_db)) = None
  ∧ ∃ w',
      add_match_for_player 7 ∅ (quiet empty_db) =
        (Done (jsonify (message "Player not found") 404), w',
         [Connect 0; Execute 0 (SelectPlayerIdById 7) None; Close 0])
      ∧ disk w' = empty_db.
Proof.
  assert (H : ¬ player_exists 7 (disk (quiet empty_db))).
  { intros (p & Hp & _). destruct Hp. }
  split; [reflexivity|]. split; [exact H|]. split; [reflexivity|].
  exact (add_match_unknown_player 7 ∅ (quiet empty_db) eq_refl H eq_refl).
Defined.

(** Whatever the store holds, the existence query is the first statement of
    the view: an INSERT can only come after it. *)
Lemma existence_check_first (player_id : Z) (data : gmap string pyval) (w : world) :
  ∃ err rest,
    (add_match_for_player player_id data w).2 =
      Connect (next_handle w)
      :: Execute (next_handle w) (SelectPlayerIdById player_id) err :: rest.
Proof.
  unfold add_match_for_player. unfold_monad.
  explore; eexists _, _; reflexivity.
Qed.

(** ** Updates and deletes by id *)



(** Faults or not, the statement is the first storage call of the view. *)
Lemma mutation_runs_first (req : request) (s : statement) (notfound : string)
    (w : world) :
  mutation req = Some (s, notfound) →
  ∃ err rest,
    (route req w).2 =
      Connect (next_handle w) :: Execute (next_handle w) s err :: rest.
Proof.
  intros Hm.
  destruct req; try discriminate; injection Hm as <- <-; cbn [route];
    unfold_views; unfold_monad; explore; eexists _, _; reflexivity.
Qed.

(** ** Storage errors *)

Ltac failed_call H :=
  let s := fresh "s" in
  let Hs := fresh "Hs" in
  destruct H as [(s & Hs & H)|H]; cbn in H;
  repeat (destruct H as [H|H]; [try discriminate; simplify_eq; try discriminate|]);
  try contradiction.

(** C7. When the INSERT, UPDATE or DELETE of a request, or its commit,
    raises a storage error, the view rolls back, the file is as it was before
    the request, the answer is 500 with the error as its body, and the
    request has executed its write statement once. *)
Theorem storage_error_rolls_back (req : request) (w w' : world)
    (r : outcome response) (t : list event) (h : nat) (e : string) :
  route req w = (r, w', t) →
  write_failed h e t →
  r = Done (jsonify (error e) 500)
  ∧ disk w' = disk w
  ∧ In (Rollback h) t
  ∧ length (write_executions t) = 1%nat.
Proof.
  destruct req; cbn [route]; unfold_views; unfold_monad.
  - explore; intros [= <- <- <-] H; failed_call H; cbn; auto 10.
  - run. case_fault; run.
    + intros [= <- <- <-] H; failed_call H.
    + match goal with
      | |- context [with_matches ?c ?l ?w0] =>
          destruct (with_matches_reads c
                      {| foreign_keys := default_foreign_keys; pending := None |}
                      l w0 ltac:(open_handle))
            as (r1 & w1 & t1 & -> & _ & _ & Ht)
      end.
      destruct r1; run; intros [= <- <- <-] H;
        (destruct H as [(s & Hs & H)|H]; cbn in H;
         (destruct H as [H|[H|H]]; [discriminate|discriminate|]);
         rewrite ?in_app_iff in H; cbn in H;
         repeat match goal with
           | H : _ ∨ _ |- _ => destruct H as [H|H]
           end; try discriminate; try contradiction;
         rewrite Forall_forall in Ht; apply list_elem_of_In, Ht in H;
         destruct H as (s' & err & E & Hr); simplify_eq; congruence).
  - explore; intros [= <- <- <-] H; failed_call H; cbn; auto 10.
  - explore; intros [= <- <- <-] H; failed_call H; cbn; auto 10.
  - explore; intros [= <- <- <-] H; failed_call H; cbn; auto 10.
  - explore; intros [= <- <- <-] H; failed_call H; cbn; auto 10.
  - explore; intros [= <- <- <-] H; failed_call H; cbn; auto 10.
  - explore; intros [= <- <- <-] H; failed_call H; cbn; auto 10.
Qed.

Lemma storage_error_rolls_back_witness :
  let out := route (DELETE_player 1) (failing one_match "disk I/O error") in
  write_failed 0 "disk I/O error" out.2
  ∧ out.1.1 = Done (jsonify (error "disk I/O error") 500)
  ∧ disk out.1.2 = one_match
  ∧ In (Rollback 0) out.2
  ∧ length (write_executions out.2) = 1%nat.
Proof.
  intros out.
  assert (H : write_failed 0 "disk I/O error" out.2).
  { left. exists (DeletePlayer 1). split; [reflexivity|]. right. left. reflexivity. }
  split; [exact H|].
  exact (storage_error_rolls_back (DELETE_player 1)
           (failing one_match "disk I/O error") out.1.2 out.1.1 out.2 0
           "disk I/O error" eq_refl H).
Defined.

(** ** Updating a player without a name *)

(** C10. For an existing player, a PUT /players/{id} whose body has no
    name, or a null one, and whose other integers are in range, ends in 500
    with an error body, never 400; the view rolls back and the store is as
    before. When no outside fault hits the UPDATE, the error is the NOT NULL
    constraint on players.name, raised by the UPDATE that carried NULL for
    the name. *)
Theorem update_player_without_name (player_id : Z) (data : gmap string pyval)
    (w : world) :
  player_exists player_id (disk w) →
  data !! "name" = None ∨ data !! "name" = Some PNone →
  bindable ["role"; "batting_style"; "bowling_style"] data = true →
  ∃ e w' t,
    update_player player_id data w = (Done (jsonify (error e) 500), w', t)
    ∧ status (jsonify (error e) 500) ≠ 400
    ∧ disk w' = disk w
    ∧ In (Rollback (next_handle w)) t
    ∧ (fault_of (faults w) = None →
       e = "NOT NULL constraint failed: players.name"
       ∧ t = [Connect (next_handle w);
              Execute (next_handle w)
                (UpdatePlayer VNull (bind (get data "role"))
                   (bind (get data "batting_style"))
                   (bind (get data "bowling_style")) player_id)
                (Some e);
              Rollback (next_handle w);
              Close (next_handle w)]).
Proof.
  intros Hp Hn _.
  assert (Hname : get data "name" = PNone).
  { unfold get. destruct Hn as [-> | ->]; reflexivity. }
  unfold update_player. unfold_monad. rewrite Hname. run.
  rewrite (has_player_exists _ _ Hp). run.
  destruct (fault_of (faults w)) eqn:Hf; run.
  - eexists _, _, _. split; [reflexivity|].
    split; [cbn; lia|]. split; [reflexivity|]. split; [cbn; auto|].
    intros N; discriminate N.
  - eexists _, _, _. split; [reflexivity|].
    split; [cbn; lia|]. split; [reflexivity|]. split; [cbn; auto|].
    intros _. split; reflexivity.
Qed.

Lemma update_player_without_name_witness :
  let body : gmap string pyval := {[ "role" := PStr "Batsman" ]} in
  player_exists 1 (disk (quiet one_player))
  ∧ (body !! "name" = None ∨ body !! "name" = Some PNone)
  ∧ bindable ["role"; "batting_style"; "bowling_style"] body = true
  ∧ ∃ e w' t,
      update_player 1 body (quiet one_player) = (Done (jsonify (error e) 500), w', t)
      ∧ status (jsonify (error e) 500) ≠ 400
      ∧ disk w' = one_player
      ∧ In (Rollback 0) t
      ∧ (fault_of [] = None →
         e = "NOT NULL constraint failed: players.name"
         ∧ t = [Connect 0;
                Execute 0
                  (UpdatePlayer VNull (bind (get body "role"))
                     (bind (get body "batting_style"))
                     (bind (get body "bowling_style")) 1)
                  (Some e);
                Rollback 0; Close 0]).
Proof.
  intros body.
  assert (H : player_exists 1 (disk (quiet one_player))).
  { exists rahul_row. split; [left|]; reflexivity. }
  assert (Hn : body !! "name" = None ∨ body !! "name" = Some PNone)
    by (left; reflexivity).
  assert (Hb : bindable ["role"; "batting_style"; "bowling_style"] body = true)
    by reflexivity.
  split; [exact H|]. split; [exact Hn|]. split; [exact Hb|].
  exact (update_player_without_name 1 body (quiet one_player) H Hn Hb).
Defined.

(** ** Updating a match *)

Lemma keeps_keys_refl match_id l : Forall2 (keeps_keys match_id) l l.
Proof.
  induction l; constructor; [|assumption]. repeat split.
Qed.

Lemma set_match_keeps_keys stats match_id l :
  Forall2 (keeps_keys match_id) l (map (set_match stats match_id) l).
Proof.
  induction l as [|m l IH]; cbn [map]; constructor; [|exact IH].
  unfold keeps_keys, set_match.
  destruct (m_id m =? match_id) eqn:E; cbn.
  - apply Z.eqb_eq in E. repeat split. intros N. contradiction.
  - repeat split.
Qed.

(** C9. Whatever the body and whatever the outcome, PUT /matches/{id}
    leaves the players table as it was and keeps, row for row, the id and
    the player_id of every match; the rows it does not address are
    unchanged, and no row is added or removed. *)
Theorem update_match_keeps_keys (match_id : Z) (data : gmap string pyval)
    (w : world) :
  let '(_, w', _) := update_match match_id data w in
  players (disk w') = players (disk w)
  ∧ Forall2 (keeps_keys match_id) (matches (disk w)) (matches (disk w')).
Proof.
  unfold update_match. unfold_monad.
  explore; (split; [reflexivity|]);
    first [apply keeps_keys_refl | apply set_match_keeps_keys].
Qed.

(** ** Match fields absent from the body *)

(** C4. In a store without faults, take one of the nine settable match
    fields that the body does not mention, the body's integers under those
    fields being in range. POST /players/{id}/matches under an existing
    player stores a new row whose column holds the documented default; PUT
    /matches/{id} on an existing match leaves NULL in the column of the row,
    whatever it held. *)
Theorem absent_match_fields (w : world) (data : gmap string pyval)
    (k : string) (v : pyval) :
  faults w = [] →
  bindable settable data = true →
  In (k, v) documented_defaults →
  data !! k = None →
  (∀ player_id,
     player_exists player_id (disk w) → room_for_match (disk w) →
     ∃ body w' t m,
       add_match_for_player player_id data w = (Done (jsonify body 201), w', t)
       ∧ matches (disk w') = matches (disk w) ++ [m]
       ∧ m_player_id m = player_id
       ∧ column k (match_columns m) = Some (bind v))
  ∧ (∀ match_id,
       match_exists match_id (disk w) →
       ∃ body w' t,
         update_match match_id data w = (Done (jsonify body 200), w', t)
         ∧ match_exists match_id (disk w')
         ∧ ∀ m, In m (matches (disk w')) → m_id m = match_id →
                column k (match_columns m) = Some VNull).
Proof.
  intros Hf _ Hk Hd. split.
  - intros player_id Hp Hroom.
    destruct (some_player_rows _ _ Hp) as (p & ps & Hps & _).
    unfold add_match_for_player. unfold_monad. run. rewrite Hf. run.
    rewrite Hps. run. rewrite (room_next_rowid _ Hroom). run.
    rewrite filter_fresh_match;
      [|reflexivity
       |intros x Hx; apply (in_map m_id) in Hx; apply largest_ge in Hx; lia].
    run. eexists _, _, _, _. split; [reflexivity|].
    split; [reflexivity|]. split; [reflexivity|].
    unfold get_or.
    cbn in Hk.
    repeat (destruct Hk as [Hk|Hk]; [injection Hk as <- <-; rewrite Hd; reflexivity|]).
    destruct Hk.
  - intros match_id Hm.
    destruct (some_match_rows _ _ Hm) as (m0 & ms & Hms & _).
    unfold update_match. unfold_monad. run. rewrite Hf. run.
    unfold count_matches. rewrite Hms. run. rewrite of_nat_S_eqb. run.
    rewrite filter_set_match, Hms. run.
    eexists _, _, _. split; [reflexivity|]. split.
    + destruct Hm as (m & Hin & E).
      exists (set_match
                {| did_bat := bind (get data "did_bat");
                   runs := bind (get data "runs");
                   balls := bind (get data "balls");
                   wickets := bind (get data "wickets");
                   overs := bind (get data "overs");
                   conceded := bind (get data "conceded");
                   catches := bind (get data "catches");
                   stumpings := bind (get data "stumpings");
                   run_outs := bind (get data "run_outs") |} match_id m).
      split; [apply in_map; exact Hin|].
      unfold set_match. destruct (m_id m =? match_id); exact E.
    + intros m Hin E. unfold match_columns.
      rewrite (in_updated_matches _ _ _ _ Hin E). unfold get.
      cbn in Hk.
      repeat (destruct Hk as [Hk|Hk]; [injection Hk as <- <-; rewrite Hd; reflexivity|]).
      destruct Hk.
Qed.

Lemma absent_match_fields_witness :
  faults (quiet one_match) = []
  ∧ bindable settable ({[ "balls" := PInt 40 ]} : gmap string pyval) = true
  ∧ In ("runs", PInt 0) documented_defaults
  ∧ ({[ "balls" := PInt 40 ]} : gmap string pyval) !! "runs" = None
  ∧ (∃ body w' t m,
       add_match_for_player 1 {[ "balls" := PInt 40 ]} (quiet one_match) =
         (Done (jsonify body 201), w', t)
       ∧ matches (disk w') = [innings_row] ++ [m]
       ∧ m_player_id m = 1
       ∧ column "runs" (match_columns m) = Some (VInt 0))
  ∧ (∃ body w' t,
       update_match 1 {[ "balls" := PInt 40 ]} (quiet one_match) =
         (Done (jsonify body 200), w', t)
       ∧ match_exists 1 (disk w')
       ∧ ∀ m, In m (matches (disk w')) → m_id m = 1 →
              column "runs" (match_columns m) = Some VNull).
Proof.
  assert (Hk : In ("runs", PInt 0) documented_defaults) by (right; left; reflexivity).
  assert (Hp : player_exists 1 (disk (quiet one_match))).
  { exists rahul_row. split; [left|]; reflexivity. }
  assert (Hm : match_exists 1 (disk (quiet one_match))).
  { exists innings_row. split; [left|]; reflexivity. }
  assert (Hr : room_for_match (disk (quiet one_match))) by reflexivity.
  assert (Hd : ({[ "balls" := PInt 40 ]} : gmap string pyval) !! "runs" = None)
    by reflexivity.
  assert (Hb : bindable settable ({[ "balls" := PInt 40 ]} : gmap string pyval) = true)
    by reflexivity.
  split; [reflexivity|]. split; [exact Hb|]. split; [exact Hk|]. split; [exact Hd|].
  destruct (absent_match_fields (quiet one_match) {[ "balls" := PInt 40 ]}
              "runs" (PInt 0) eq_refl Hb Hk Hd) as [Hpost Hput].
  split; [exact (Hpost 1 Hp Hr) | exact (Hput 1 Hm)].
Defined.

(** ** Ids over a run of requests *)

Lemma ids_step_refl d : ids_step d d.
Proof.
  unfold ids_step. split; [lia|]. split; [lia|]. split; intros x Hx; left; exact Hx.
Qed.

Lemma ids_step_bounded d d' : ids_step d d' → bounded d → bounded d'.
Proof.
  intros (Hp & Hm & Fp & Fm) [Bp Bm]. split; intros x Hx.
  - destruct (Fp x Hx) as [Hin|[_ Hle]]; [specialize (Bp x Hin); lia | exact Hle].
  - destruct (Fm x Hx) as [Hin|[_ Hle]]; [specialize (Bm x Hin); lia | exact Hle].
Qed.

Lemma next_rowid_above seq ids id :
  next_rowid seq ids = Ok id → seq < id ∧ ∀ x, In x ids → x < id.
Proof.
  unfold next_rowid. destruct (_ <? _); [|discriminate].
  intros [= <-]. split; [lia|]. intros x Hx. apply largest_ge in Hx. lia.
Qed.

Lemma map_set_player_ids name role bs bw id l :
  map p_id (map (set_player name role bs bw id) l) = map p_id l.
Proof.
  induction l as [|p l IH]; [reflexivity|]. cbn [map]. rewrite IH. f_equal.
  unfold set_player. destruct (p_id p =? id); reflexivity.
Qed.

Lemma map_set_match_ids stats id l :
  map m_id (map (set_match stats id) l) = map m_id l.
Proof.
  induction l as [|m l IH]; [reflexivity|]. cbn [map]. rewrite IH. f_equal.
  unfold set_match. destruct (m_id m =? id); reflexivity.
Qed.

Lemma in_map_filter {A B} (g : A → B) (f : A → bool) (l : list A) x :
  In x (map g (List.filter f l)) → In x (map g l).
Proof.
  rewrite !in_map_iff. intros (a & E & Ha). apply filter_In in Ha.
  exists a. tauto.
Qed.

Lemma run_statement_ids fk d s cur d' :
  run_statement fk d s = Ok (cur, d') → ids_step d d'.
Proof.
  destruct s; cbn [run_statement].
  all: try (intros [= <- <-]; apply ids_step_refl).
  - destruct (next_rowid _ _) as [rid|] eqn:Hid; [|discriminate].
    destruct (is_null name); [discriminate|]. intros [= <- <-].
    apply next_rowid_above in Hid. destruct Hid as [Hs Hl].
    unfold ids_step, player_ids, match_ids. cbn.
    split; [lia|]. split; [lia|]. split; intros x; [|auto].
    rewrite map_app, in_app_iff. cbn. intros [Hx|[<-|[]]]; [auto|right; lia].
  - destruct (_ && _); [discriminate|]. intros [= <- <-].
    unfold ids_step, player_ids, match_ids. cbn.
    rewrite map_set_player_ids.
    split; [lia|]. split; [lia|]. split; intros x Hx; left; exact Hx.
  - intros [= <- <-]. unfold ids_step, player_ids, match_ids. cbn.
    split; [lia|]. split; [lia|]. split; intros x Hx; left.
    + eapply in_map_filter. exact Hx.
    + destruct fk; [eapply in_map_filter|]; exact Hx.
  - destruct (next_rowid _ _) as [rid|] eqn:Hid; [|discriminate].
    destruct (_ && _); [discriminate|]. intros [= <- <-].
    apply next_rowid_above in Hid. destruct Hid as [Hs Hl].
    unfold ids_step, player_ids, match_ids. cbn.
    split; [lia|]. split; [lia|]. split; intros x; [auto|].
    rewrite map_app, in_app_iff. cbn. intros [Hx|[<-|[]]]; [auto|right; lia].
  - intros [= <- <-]. unfold ids_step, player_ids, match_ids. cbn.
    rewrite map_set_match_ids.
    split; [lia|]. split; [lia|]. split; intros x Hx; left; exact Hx.
  - intros [= <- <-]. unfold ids_step, player_ids, match_ids. cbn.
    split; [lia|]. split; [lia|]. split; intros x Hx; left; [exact Hx|].
    eapply in_map_filter. exact Hx.
Qed.

(** A request leaves the file as it was, or as one statement made it. *)
Lemma route_disk req w :
  let '(_, w', _) := route req w in
  disk w' = disk w
  ∨ ∃ s cur, run_statement default_foreign_keys (disk w) s = Ok (cur, disk w').
Proof.
  destruct req; cbn [route]; unfold_views; unfold_monad.
  - explore; try (left; reflexivity).
    all: right; eexists (InsertPlayer _ _ _ _), _; cbn;
      match goal with H : next_rowid _ _ = _ |- _ => rewrite H end;
      match goal with H : is_null _ = _ |- _ => rewrite H end; reflexivity.
  - run. case_fault; run; [left; reflexivity|].
    match goal with
    | |- context [with_matches ?c ?l ?w0] =>
        destruct (with_matches_reads c
                    {| foreign_keys := default_foreign_keys; pending := None |}
                    l w0 ltac:(open_handle))
          as (r1 & w1 & t1 & -> & Hd & _ & _)
    end.
    destruct r1; run; left; exact Hd.
  - explore; left; reflexivity.
  - explore; try (left; reflexivity).
    all: right; eexists (UpdatePlayer _ _ _ _ _), _; cbn;
      match goal with H : (_ && _) = _ |- _ => rewrite H end; reflexivity.
  - explore; try (left; reflexivity).
    all: right; eexists (DeletePlayer _), _; reflexivity.
  - explore; try (left; reflexivity).
    all: right; eexists (InsertMatch _ _), _; cbn;
      match goal with H : next_rowid _ _ = _ |- _ => rewrite H end; reflexivity.
  - explore; try (left; reflexivity).
    all: right; eexists (UpdateMatch _ _), _; reflexivity.
  - explore; try (left; reflexivity).
    all: right; eexists (DeleteMatch _), _; reflexivity.
Qed.

Lemma route_ids req w : ids_step (disk w) (disk (route req w).1.2).
Proof.
  pose proof (route_disk req w) as H.
  destruct (route req w) as [[r w'] t]. cbn.
  destruct H as [-> | (s & cur & H)]; [apply ids_step_refl|].
  eapply run_statement_ids. exact H.
Qed.

Lemma serve_app l1 l2 w : serve (l1 ++ l2) w = serve l2 (serve l1 w).
Proof. revert w. induction l1 as [|r l1 IH]; intros w; [reflexivity|]. cbn. apply IH. Qed.

Lemma serve_bounded reqs w : bounded (disk w) → bounded (disk (serve reqs w)).
Proof.
  revert w. induction reqs as [|r reqs IH]; intros w H; [exact H|].
  cbn. apply IH. eapply ids_step_bounded; [apply route_ids | exact H].
Qed.

Lemma serve_seq reqs w :
  seq_players (disk w) ≤ seq_players (disk (serve reqs w))
  ∧ seq_matches (disk w) ≤ seq_matches (disk (serve reqs w)).
Proof.
  revert w. induction reqs as [|r reqs IH]; intros w; [cbn [serve]; lia|].
  cbn [serve]. destruct (IH (route r w).1.2) as [Hp Hm].
  destruct (route_ids r w) as (Sp & Sm & _). lia.
Qed.

(** C8. Start from a store whose tables lie under their AUTOINCREMENT
    counters and serve any requests. An id that a request newly puts in the
    players table is greater than every id the table held at any earlier
    point of the run, whether its row is still there or was deleted; the
    same holds of the matches table. *)
Theorem new_ids_exceed_past_ids (w : world) (before : list request)
    (req : request) (n : nat) (x y : Z) :
  bounded (disk w) →
  let past := serve (take n before) w in
  let w1 := serve before w in
  let w2 := serve [req] w1 in
  (In x (player_ids (disk w2)) → ¬ In x (player_ids (disk w1)) →
   In y (player_ids (disk past)) → y < x)
  ∧ (In x (match_ids (disk w2)) → ¬ In x (match_ids (disk w1)) →
     In y (match_ids (disk past)) → y < x).
Proof.
  intros Hb past w1 w2.
  assert (Hpast : bounded (disk past)) by (apply serve_bounded; exact Hb).
  assert (Hseq : seq_players (disk past) ≤ seq_players (disk w1)
                 ∧ seq_matches (disk past) ≤ seq_matches (disk w1)).
  { subst past w1. rewrite <- (take_drop n before) at 2 4.
    rewrite serve_app. apply serve_seq. }
  destruct (route_ids req w1) as (_ & _ & Fp & Fm).
  destruct Hpast as [Bp Bm]. destruct Hseq as [Sp Sm].
  split; intros Hx Hnew Hy.
  - destruct (Fp x Hx) as [Hin|[Hlt _]]; [contradiction|].
    specialize (Bp y Hy). lia.
  - destruct (Fm x Hx) as [Hin|[Hlt _]]; [contradiction|].
    specialize (Bm y Hy). lia.
Qed.

Lemma new_ids_exceed_past_ids_witness :
  let w := quiet empty_db in
  let before := [POST_players rahul; DELETE_player 1] in
  let past := serve (take 1 before) w in
  let w1 := serve before w in
  let w2 := serve [POST_players rahul] w1 in
  bounded (disk w)
  ∧ player_ids (disk past) = [1]
  ∧ player_ids (disk w1) = []
  ∧ player_ids (disk w2) = [2]
  ∧ 1 < 2.
Proof.
  intros w before past w1 w2.
  assert (Hb : bounded (disk w)) by (split; intros x []).
  split; [exact Hb|]. split; [reflexivity|]. split; [reflexivity|].
  split; [reflexivity|].
  refine (proj1 (new_ids_exceed_past_ids w before (POST_players rahul) 1 2 1 Hb)
            _ _ _).
  - left. reflexivity.
  - intros [].
  - left. reflexivity.
Defined.

(** ** Deleting a player that has matches *)

Lemma delete_player_keeps_matches (player_id : Z) (w : world) :
  matches (disk (delete_player player_id w).1.2) = matches (disk w).
Proof.
  unfold delete_player. unfold_monad. explore; reflexivity.
Qed.

(** With foreign keys enforced, the DELETE takes the player's matches along. *)
Lemma cascade_when_enforced (player_id : Z) (d d' : db) (cur : cursor) :
  run_statement true d (DeletePlayer player_id) = Ok (cur, d') →
  ∀ m, In m (matches d') → m_player_id m ≠ player_id.
Proof.
  cbn. intros [= _ <-] m Hm. cbn in Hm. apply filter_In in Hm.
  destruct Hm as [_ Hm]. apply negb_true_iff, Z.eqb_neq in Hm. exact Hm.
Qed.

(** C1. The run POST /players, POST /players/1/matches, DELETE /players/1
    on an empty store: the DELETE answers 204 and the player row is gone, but
    the match row of player 1 is still in the store. *)
Theorem delete_player_leaves_matches :
  let w := serve [POST_players rahul; POST_player_matches 1 innings] (quiet empty_db) in
  disk w = one_match
  ∧ ∃ w' t,
      delete_player 1 w =
        (Done (jsonify (message "Player deleted successfully") 204), w', t)
      ∧ players (disk w') = []
      ∧ matches (disk w') = [innings_row]
      ∧ m_player_id innings_row = 1.
Proof.
  split; [reflexivity|].
  eexists _, _. split; [reflexivity|]. repeat split.
Qed.

(** ** Bodies of 204 responses *)

(** What the delete views hand to Flask on success: status 204, with a
    message that the 204 keeps from being sent. *)
Lemma delete_views_build_a_message :
  (delete_player 1 (quiet one_player)).1.1 =
    Done {| status := 204;
            payload := Some (JObj [("message", JStr "Player deleted successfully")]) |}
  ∧ (delete_match 1 (quiet one_match)).1.1 =
    Done {| status := 204;
            payload := Some (JObj [("message", JStr "Match deleted successfully")]) |}.
Proof. split; reflexivity. Qed.

(** C5. In a store without faults, DELETE /players/{id} of an existing
    player and DELETE /matches/{id} of an existing match answer with status
    204, and the HTTP response has no body: the 204 keeps the message the
    view built from being sent. The file then holds what the DELETE made of
    it. *)
Theorem successful_delete_sends_no_body (w : world) :
  faults w = [] →
  (∀ player_id,
     player_exists player_id (disk w) →
     ∃ r w' t,
       delete_player player_id w = (Done r, w', t)
       ∧ status r = 204
       ∧ sent_body r = None
       ∧ ¬ player_exists player_id (disk w'))
  ∧ (∀ match_id,
       match_exists match_id (disk w) →
       ∃ r w' t,
         delete_match match_id w = (Done r, w', t)
         ∧ status r = 204
         ∧ sent_body r = None
         ∧ ¬ match_exists match_id (disk w')).
Proof.
  intros Hf. split.
  - intros player_id Hp.
    destruct (some_player_rows _ _ Hp) as (p & rest & Hrows & _).
    unfold delete_player. unfold_monad. run. rewrite Hf. run.
    unfold count_players. rewrite Hrows. cbn [length]. rewrite of_nat_S_eqb. run.
    eexists _, _, _. split; [reflexivity|]. split; [reflexivity|].
    split; [reflexivity|].
    intros (x & Hin & E). cbn in Hin. apply filter_In in Hin.
    destruct Hin as [_ Hin]. apply negb_true_iff, Z.eqb_neq in Hin. contradiction.
  - intros match_id Hm.
    destruct (some_match_rows _ _ Hm) as (m & rest & Hrows & _).
    unfold delete_match. unfold_monad. run. rewrite Hf. run.
    unfold count_matches. rewrite Hrows. cbn [length]. rewrite of_nat_S_eqb. run.
    eexists _, _, _. split; [reflexivity|]. split; [reflexivity|].
    split; [reflexivity|].
    intros (x & Hin & E). cbn in Hin. apply filter_In in Hin.
    destruct Hin as [_ Hin]. apply negb_true_iff, Z.eqb_neq in Hin. contradiction.
Qed.

Lemma successful_delete_sends_no_body_witness :
  faults (quiet one_match) = []
  ∧ (∃ r w' t,
       delete_player 1 (quiet one_match) = (Done r, w', t)
       ∧ status r = 204
       ∧ sent_body r = None
       ∧ ¬ player_exists 1 (disk w'))
  ∧ (∃ r w' t,
       delete_match 1 (quiet one_match) = (Done r, w', t)
       ∧ status r = 204
       ∧ sent_body r = None
       ∧ ¬ match_exists 1 (disk w')).
Proof.
  assert (Hp : player_exists 1 (disk (quiet one_match))).
  { exists rahul_row. split; [left|]; reflexivity. }
  assert (Hm : match_exists 1 (disk (quiet one_match))).
  { exists innings_row. split; [left|]; reflexivity. }
  split; [reflexivity|].
  destruct (successful_delete_sends_no_body (quiet one_match) eq_refl) as [Hdp Hdm].
  split; [exact (Hdp 1 Hp) | exact (Hdm 1 Hm)].
Defined.

(** ** Connections left open *)

(** C6. POST /players with a name on an empty store, and POST
    /players/1/matches on a store holding player 1, both answer 201 after
    opening two connections and closing only the first: the second is still
    open when the view returns. *)
Theorem creation_leaves_connection_open :
  (∃ r w',
     add_player rahul (quiet empty_db) =
       (Done r, w',
        [Connect 0;
         Execute 0 (InsertPlayer (VText "Rahul") VNull VNull VNull) None;
         Commit 0 None;
         Connect 1;
         Execute 1 (SelectPlayerById 1) None;
         Close 0])
     ∧ status r = 201
     ∧ is_Some (conns w' !! 1%nat))
  ∧ (∃ r w' s,
       add_match_for_player 1 innings (quiet one_player) =
         (Done r, w',
          [Connect 0;
           Execute 0 (SelectPlayerIdById 1) None;
           Execute 0 (InsertMatch 1 s) None;
           Commit 0 None;
           Connect 1;
           Execute 1 (SelectMatchById 1) None;
           Close 0])
       ∧ status r = 201
       ∧ is_Some (conns w' !! 1%nat)).
Proof.
  split.
  - eexists _, _. split; [reflexivity|]. split; [reflexivity|].
    eexists. reflexivity.
  - eexists _, _, _. split; [reflexivity|]. split; [reflexivity|].
    eexists. reflexivity.
Qed.

(** ** Start-up *)

(** [init_db] on a file that has its tables changes nothing and closes the
    connection it opened. *)
Lemma init_db_idempotent (d : db) :
  ∃ w', (init_db (quiet d)).1 = (Done (), w') ∧ disk w' = d ∧ conns w' = ∅.
Proof. eexists. split; [reflexivity|]. split; reflexivity. Qed.

(** * Further properties of the views *)

(** ** Creating a player *)

Lemma truthy_not_null v : truthy v = true → is_null (bind v) = false.
Proof. destruct v; cbn; congruence. Qed.

Lemma room_next_player d :
  room_for_player d →
  next_rowid (seq_players d) (map p_id (players d)) =
    Ok (Z.max (seq_players d) (largest (map p_id (players d))) + 1).
Proof.
  unfold room_for_player, next_rowid. intros H.
  apply Z.ltb_lt in H. rewrite H. reflexivity.
Qed.

Lemma filter_fresh_player id l p :
  p_id p = id → (∀ x, In x l → p_id x < id) →
  List.filter (λ p, p_id p =? id) (l ++ [p]) = [p].
Proof.
  intros E H. rewrite List.filter_app. rewrite filter_none.
  - cbn. rewrite E, Z.eqb_refl. reflexivity.
  - intros x Hx. apply Z.eqb_neq. specialize (H x Hx). lia.
Qed.

(** X1. POST /players whose body has no name, or a name that Python takes
    for false (null, the empty string, 0, false), answers 400 with the error
    "Player name is required" without any storage call: no connection is
    opened, and the world is the same. *)
Theorem add_player_requires_name (data : gmap string pyval) (w : world) :
  truthy (get data "name") = false →
  add_player data w = (Done (jsonify (error "Player name is required") 400), w, []).
Proof. intros H. unfold add_player. rewrite H. reflexivity. Qed.

Lemma add_player_requires_name_witness :
  truthy (get {[ "name" := PStr EmptyString ]} "name") = false
  ∧ add_player {[ "name" := PStr EmptyString ]} (quiet one_player) =
      (Done (jsonify (error "Player name is required") 400), quiet one_player, []).
Proof.
  assert (H : truthy (get {[ "name" := PStr EmptyString ]} "name") = false)
    by reflexivity.
  split; [exact H|].
  exact (add_player_requires_name {[ "name" := PStr EmptyString ]}
           (quiet one_player) H).
Defined.

Lemma add_player_runs (data : gmap string pyval) (w : world) :
  faults w = [] →
  truthy (get data "name") = true →
  room_for_player (disk w) →
  let id := Z.max (seq_players (disk w)) (largest (player_ids (disk w))) + 1 in
  ∃ w' t,
    add_player data w =
      (Done (jsonify (JObj (dict (PlayerRow (new_player id data)))) 201), w', t)
    ∧ disk w' =
        {| players := players (disk w) ++ [new_player id data];
           matches := matches (disk w);
           seq_players := id;
           seq_matches := seq_matches (disk w) |}
    ∧ faults w' = [].
Proof.
  intros Hf Hn Hroom id. unfold add_player. rewrite Hn. unfold_monad. run.
  rewrite Hf. run. rewrite (room_next_player _ Hroom). run.
  rewrite (truthy_not_null _ Hn). run.
  rewrite filter_fresh_player;
    [|reflexivity
     |intros x Hx; apply (in_map p_id) in Hx; apply largest_ge in Hx; lia].
  run. eexists _, _. split; [reflexivity|]. split; reflexivity.
Qed.

(** X2. In a store without faults and with room for a rowid, POST /players
    with a name Python takes for true, the four fields of the body being
    strings or null, answers 201 with the columns of the new row: its id is
    one more than the larger of the counter and the largest id present, its
    four fields are the body's values (absent ones NULL). The file gains that
    row at the end of [players] and the counter moves to the id; [matches] is
    untouched. *)
Theorem add_player_stores_and_returns (data : gmap string pyval) (w : world) :
  faults w = [] →
  typed player_affinities data = true →
  truthy (get data "name") = true →
  room_for_player (disk w) →
  let id := Z.max (seq_players (disk w)) (largest (player_ids (disk w))) + 1 in
  ∃ w' t,
    add_player data w =
      (Done (jsonify (JObj (dict (PlayerRow (new_player id data)))) 201), w', t)
    ∧ disk w' =
        {| players := players (disk w) ++ [new_player id data];
           matches := matches (disk w);
           seq_players := id;
           seq_matches := seq_matches (disk w) |}.
Proof.
  intros Hf _ Hn Hroom id.
  destruct (add_player_runs data w Hf Hn Hroom) as (w' & t & E & Hd & _).
  exists w', t. split; assumption.
Qed.

Lemma add_player_stores_and_returns_witness :
  faults (quiet one_player) = []
  ∧ typed player_affinities rahul = true
  ∧ truthy (get rahul "name") = true
  ∧ room_for_player (disk (quiet one_player))
  ∧ ∃ w' t,
      add_player rahul (quiet one_player) =
        (Done (jsonify (JObj (dict (PlayerRow (new_player 2 rahul)))) 201), w', t)
      ∧ disk w' =
          {| players := [rahul_row] ++ [new_player 2 rahul];
             matches := [];
             seq_players := 2;
             seq_matches := 0 |}.
Proof.
  assert (Ht : typed player_affinities rahul = true) by reflexivity.
  assert (Hn : truthy (get rahul "name") = true) by reflexivity.
  assert (Hr : room_for_player (disk (quiet one_player))) by reflexivity.
  split; [reflexivity|]. split; [exact Ht|]. split; [exact Hn|]. split; [exact Hr|].
  exact (add_player_stores_and_returns rahul (quiet one_player) eq_refl Ht Hn Hr).
Defined.

(** ** Reading players *)

Lemma get_player_absent (player_id : Z) (w : world) :
  ¬ player_exists player_id (disk w) →
  fault_of (faults w) = None →
  ∃ w',
    get_player player_id w =
      (Done (jsonify (message "Player not found") 404), w',
       [Connect (next_handle w);
        Execute (next_handle w) (SelectPlayerById player_id) None;
        Close (next_handle w)])
    ∧ disk w' = disk w
    ∧ conns w' = delete (next_handle w) (conns w).
Proof.
  intros Hno Hf. unfold get_player. unfold_monad. run.
  rewrite Hf. run. rewrite (no_player_rows _ _ Hno). run.
  eexists. split; [reflexivity|]. split; [reflexivity|].
  cbn. apply delete_insert_eq.
Qed.

(** X3. GET /players/{id} for an id in range that no player row has, when
    the query goes through, answers 404 with the message "Player not found";
    it runs that one query, closes the connection it opened and leaves the
    file as it was. *)
Theorem get_player_unknown (player_id : Z) (w : world) :
  int64 player_id = true →
  ¬ player_exists player_id (disk w) →
  fault_of (faults w) = None →
  ∃ w',
    get_player player_id w =
      (Done (jsonify (message "Player not found") 404), w',
       [Connect (next_handle w);
        Execute (next_handle w) (SelectPlayerById player_id) None;
        Close (next_handle w)])
    ∧ disk w' = disk w
    ∧ conns w' = delete (next_handle w) (conns w).
Proof. intros _. apply get_player_absent. Qed.

Lemma get_player_unknown_witness :
  int64 7 = true
  ∧ ¬ player_exists 7 (disk (quiet one_player))
  ∧ fault_of (faults (quiet one_player)) = None
  ∧ ∃ w',
      get_player 7 (quiet one_player) =
        (Done (jsonify (message "Player not found") 404), w',
         [Connect 0; Execute 0 (SelectPlayerById 7) None; Close 0])
      ∧ disk w' = one_player
      ∧ conns w' = delete 0%nat ∅.
Proof.
  assert (H : ¬ player_exists 7 (disk (quiet one_player))).
  { intros (p & [<-|[]] & E). discriminate E. }
  split; [reflexivity|]. split; [exact H|]. split; [reflexivity|].
  exact (get_player_unknown 7 (quiet one_player) eq_refl H eq_refl).
Defined.

Lemma get_player_present (player_id : Z) (w : world) (p : player_row)
    (rest : list player_row) :
  faults w = [] →
  List.filter (λ p, p_id p =? player_id) (players (disk w)) = p :: rest →
  ∃ w',
    get_player player_id w =
      (Done (jsonify (player_with_matches (disk w) p) 200), w',
       [Connect (next_handle w);
        Execute (next_handle w) (SelectPlayerById player_id) None;
        Execute (next_handle w) (SelectMatchesByPlayer player_id) None;
        Close (next_handle w)])
    ∧ disk w' = disk w
    ∧ conns w' = delete (next_handle w) (conns w)
    ∧ faults w' = [].
Proof.
  intros Hf Hp.
  assert (E : p_id p = player_id).
  { assert (Hin : In p (List.filter (λ p, p_id p =? player_id) (players (disk w))))
      by (rewrite Hp; left; reflexivity).
    apply filter_In in Hin. apply Z.eqb_eq. apply Hin. }
  subst player_id.
  unfold get_player. unfold_monad. run. rewrite Hf. run. rewrite Hp. run.
  unfold player_with_matches, matches_of. rewrite map_map.
  eexists. split; [reflexivity|]. split; [reflexivity|].
  split; [cbn; apply delete_insert_eq | reflexivity].
Qed.

(** X4. In a store without faults, GET /players/{id} for an id some player
    row has answers 200 with the columns of the first such row followed by
    the key "matches", which holds every match row whose player_id is the id,
    in table order; it closes its connection and leaves the file as it
    was. *)
Theorem get_player_embeds_matches (player_id : Z) (w : world) :
  faults w = [] →
  player_exists player_id (disk w) →
  ∃ p w' t,
    In p (players (disk w)) ∧ p_id p = player_id
    ∧ get_player player_id w =
        (Done (jsonify
                 (JObj (dict (PlayerRow p) ++
                        [("matches",
                          JArr (map (λ m, JObj (dict (MatchRow m)))
                                    (matches_of player_id (disk w))))])) 200),
         w', t)
    ∧ disk w' = disk w
    ∧ conns w' = delete (next_handle w) (conns w).
Proof.
  intros Hf Hp. destruct (some_player_rows _ _ Hp) as (p & rest & Hrows & E).
  destruct (get_player_present player_id w p rest Hf Hrows)
    as (w' & Hrun & Hd & Hc & _).
  eexists p, w', _. split.
  { assert (Hin : In p (List.filter (λ p, p_id p =? player_id) (players (disk w))))
      by (rewrite Hrows; left; reflexivity).
    apply filter_In in Hin. apply Hin. }
  split; [exact E|]. split; [|split; assumption].
  rewrite Hrun. unfold player_with_matches. rewrite E. reflexivity.
Qed.

Lemma get_player_embeds_matches_witness :
  faults (quiet one_match) = []
  ∧ player_exists 1 (disk (quiet one_match))
  ∧ ∃ p w' t,
      In p (players one_match) ∧ p_id p = 1
      ∧ get_player 1 (quiet one_match) =
          (Done (jsonify
                   (JObj (dict (PlayerRow p) ++
                          [("matches",
                            JArr (map (λ m, JObj (dict (MatchRow m)))
                                      (matches_of 1 one_match)))])) 200),
           w', t)
      ∧ disk w' = one_match
      ∧ conns w' = delete 0%nat ∅.
Proof.
  assert (H : player_exists 1 (disk (quiet one_match))).
  { exists rahul_row. split; [left|]; reflexivity. }
  split; [reflexivity|]. split; [exact H|].
  exact (get_player_embeds_matches 1 (quiet one_match) eq_refl H).
Defined.

(** The loop of the listing in a store without faults: one query per
    player, each answered from the file. *)
Lemma with_matches_runs conn c (ps : list player_row) d cs n :
  cs !! conn = Some c → pending c = None →
  with_matches conn (map PlayerRow ps)
    {| disk := d; conns := cs; next_handle := n; faults := [] |} =
  (Done (map (player_with_matches d) ps),
   {| disk := d; conns := cs; next_handle := n; faults := [] |},
   map (λ p, Execute conn (SelectMatchesByPlayer (p_id p)) None) ps).
Proof.
  intros Hc Hp. induction ps as [|p ps IH]; [reflexivity|].
  cbn [map with_matches]. unfold_monad.
  erewrite execute_open by exact Hc. cbn. rewrite Hp. cbn.
  unfold mbind, M_bind, mret, M_ret in IH. rewrite IH. cbn.
  unfold player_with_matches, matches_of. rewrite map_map, app_nil_r.
  reflexivity.
Qed.

(** X5. In a store without faults, GET /players answers 200 with one entry
    per player row, in table order: the columns of the row, then under
    "matches" the match rows whose player_id is the row's id. It runs one
    query for the players and one per player on the same connection, closes
    it, and leaves the file as it was. *)
Theorem get_players_lists_all (w : world) :
  faults w = [] →
  ∃ w',
    get_players w =
      (Done (jsonify (JArr (map (player_with_matches (disk w)) (players (disk w)))) 200),
       w',
       [Connect (next_handle w); Execute (next_handle w) SelectPlayers None]
       ++ map (λ p, Execute (next_handle w) (SelectMatchesByPlayer (p_id p)) None)
              (players (disk w))
       ++ [Close (next_handle w)])
    ∧ disk w' = disk w
    ∧ conns w' = delete (next_handle w) (conns w).
Proof.
  intros Hf. unfold get_players. unfold_monad. run. rewrite Hf. run.
  erewrite with_matches_runs; [|apply lookup_insert_eq|reflexivity].
  run. eexists. split; [reflexivity|]. split; [reflexivity|].
  apply delete_insert_eq.
Qed.

Lemma get_players_lists_all_witness :
  faults (quiet one_match) = []
  ∧ ∃ w',
      get_players (quiet one_match) =
        (Done (jsonify (JArr [player_with_matches one_match rahul_row]) 200),
         w',
         [Connect 0; Execute 0 SelectPlayers None]
         ++ [Execute 0 (SelectMatchesByPlayer 1) None]
         ++ [Close 0])
      ∧ disk w' = one_match
      ∧ conns w' = delete 0%nat ∅.
Proof.
  split; [reflexivity|].
  exact (get_players_lists_all (quiet one_match) eq_refl).
Defined.

(** ** What the routes leave alone *)

Lemma reads_only_no_writes conn t :
  Forall (reads_only conn) t →
  write_executions t = [] ∧ ∀ h e, ¬ In (Commit h e) t.
Proof.
  induction 1 as [|ev t (s & err & -> & Hs) _ [IHw IHc]].
  - split; [reflexivity | intros h e []].
  - split.
    + unfold write_executions in *. cbn. rewrite Hs. exact IHw.
    + intros h e [N|N]; [discriminate | exact (IHc h e N)].
Qed.

(** X6. Whatever faults await, GET /players and GET /players/{id} leave
    the file as it was, execute no INSERT, UPDATE or DELETE and never
    commit. *)
Theorem reads_never_write (w : world) :
  (let '(_, w', t) := get_players w in
   disk w' = disk w ∧ write_executions t = [] ∧ ∀ h e, ¬ In (Commit h e) t)
  ∧ (∀ player_id,
       let '(_, w', t) := get_player player_id w in
       disk w' = disk w ∧ write_executions t = [] ∧ ∀ h e, ¬ In (Commit h e) t).
Proof.
  split.
  - unfold get_players. unfold_monad. run. case_fault; run.
    + split; [reflexivity|]. split; [reflexivity|].
      intros h e [N|[N|[]]]; discriminate.
    + match goal with
      | |- context [with_matches ?c ?l ?w0] =>
          destruct (with_matches_reads c
                      {| foreign_keys := default_foreign_keys; pending := None |}
                      l w0 ltac:(open_handle))
            as (r1 & w1 & t1 & -> & Hd & _ & Ht)
      end.
      apply reads_only_no_writes in Ht. destruct Ht as [Hw Hc].
      destruct r1; run; (split; [exact Hd|]); unfold write_executions in *;
        rewrite ?List.filter_app, ?Hw; (split; [reflexivity|]);
        intros h0 e0 [N|[N|N]]; try discriminate;
        rewrite ?in_app_iff in N; cbn in N;
        repeat match goal with H : _ ∨ _ |- _ => destruct H as [H|H] end;
        try discriminate; try contradiction; exact (Hc h0 e0 N).
  - intros player_id. unfold get_player. unfold_monad.
    explore; (split; [reflexivity|]); (split; [reflexivity|]);
      intros h0 e0 N; cbn in N;
      repeat match goal with H : _ ∨ _ |- _ => destruct H as [H|H] end;
      try discriminate; contradiction.
Qed.

(** X7. Whatever the body, the store and the faults, the update and delete
    views (PUT and DELETE on /players/{id} and /matches/{id}) close the one
    connection they open on every path, the 404 and the storage error
    included: the connections open afterwards are those open before, less the
    handle the view used. *)
Theorem by_id_views_release_connection (req : request) (s : statement)
    (notfound : string) (w : world) :
  mutation req = Some (s, notfound) →
  conns (route req w).1.2 = delete (next_handle w) (conns w).
Proof.
  intros Hm.
  destruct req; try discriminate; clear Hm; cbn [route];
    unfold_views; unfold_monad; explore;
    rewrite ?insert_insert_eq; apply delete_insert_eq.
Qed.

Lemma by_id_views_release_connection_witness :
  mutation (DELETE_match 1) = Some (DeleteMatch 1, "Match not found")
  ∧ conns (route (DELETE_match 1) (failing one_match "disk I/O error")).1.2 =
      delete 0%nat ∅.
Proof.
  split; [reflexivity|].
  exact (by_id_views_release_connection (DELETE_match 1) (DeleteMatch 1)
           "Match not found" (failing one_match "disk I/O error") eq_refl).
Defined.

(** X8. A storage error on the first query of GET /players, of GET
    /players/{id} or of POST /players/{id}/matches is not caught: the view
    raises it instead of answering, and the connection it opened stays
    open. *)
Theorem read_error_escapes (msg : string) (w : world) :
  fault_of (faults w) = Some msg →
  (∃ w', get_players w =
           (Raise (SqliteError msg), w',
            [Connect (next_handle w);
             Execute (next_handle w) SelectPlayers (Some msg)])
         ∧ is_Some (conns w' !! next_handle w))
  ∧ (∀ player_id,
       ∃ w', get_player player_id w =
               (Raise (SqliteError msg), w',
                [Connect (next_handle w);
                 Execute (next_handle w) (SelectPlayerById player_id) (Some msg)])
             ∧ is_Some (conns w' !! next_handle w))
  ∧ (∀ player_id data,
       ∃ w', add_match_for_player player_id data w =
               (Raise (SqliteError msg), w',
                [Connect (next_handle w);
                 Execute (next_handle w) (SelectPlayerIdById player_id) (Some msg)])
             ∧ is_Some (conns w' !! next_handle w)).
Proof.
  intros Hf. split; [|split; intros].
  all: unfold_views; unfold_monad; run; rewrite Hf; run;
    eexists; (split; [reflexivity|]); cbn; rewrite lookup_insert_eq; eexists;
    reflexivity.
Qed.

Lemma read_error_escapes_witness :
  let w := failing one_match "disk I/O error" in
  fault_of (faults w) = Some "disk I/O error"
  ∧ (∃ w', get_players w =
             (Raise (SqliteError "disk I/O error"), w',
              [Connect 0; Execute 0 SelectPlayers (Some "disk I/O error")])
           ∧ is_Some (conns w' !! 0%nat)).
Proof.
  intros w. split; [reflexivity|].
  exact (proj1 (read_error_escapes "disk I/O error" w eq_refl)).
Defined.

(** ** Deleting *)

Lemma delete_player_runs (player_id : Z) (w : world) :
  faults w = [] →
  player_exists player_id (disk w) →
  ∃ w' t,
    delete_player player_id w =
      (Done (jsonify (message "Player deleted successfully") 204), w', t)
    ∧ disk w' =
        {| players := List.filter (λ p, negb (p_id p =? player_id)) (players (disk w));
           matches := matches (disk w);
           seq_players := seq_players (disk w);
           seq_matches := seq_matches (disk w) |}
    ∧ faults w' = [].
Proof.
  intros Hf Hp. destruct (some_player_rows _ _ Hp) as (p & rest & Hrows & _).
  unfold delete_player. unfold_monad. run. rewrite Hf. run.
  unfold count_players. rewrite Hrows. cbn [length]. rewrite of_nat_S_eqb. run.
  eexists _, _. split; [reflexivity|]. split; reflexivity.
Qed.

Lemma filtered_out_player player_id d :
  ¬ player_exists player_id
      {| players := List.filter (λ p, negb (p_id p =? player_id)) (players d);
         matches := matches d;
         seq_players := seq_players d;
         seq_matches := seq_matches d |}.
Proof.
  intros (p & Hin & E). cbn in Hin. apply filter_In in Hin.
  destruct Hin as [_ Hin]. apply negb_true_iff, Z.eqb_neq in Hin. contradiction.
Qed.

(** X9. In a store without faults, DELETE /players/{id} of an existing
    player answers 204 and removes every player row of that id and nothing
    else from [players]; a GET /players/{id} that follows answers 404 with
    "Player not found". *)
Theorem deleted_player_not_found (player_id : Z) (w : world) :
  faults w = [] →
  player_exists player_id (disk w) →
  ∃ r w1,
    (delete_player player_id w).1 = (Done r, w1)
    ∧ status r = 204
    ∧ players (disk w1) =
        List.filter (λ p, negb (p_id p =? player_id)) (players (disk w))
    ∧ (get_player player_id w1).1.1 =
        Done (jsonify (message "Player not found") 404).
Proof.
  intros Hf Hp.
  destruct (delete_player_runs player_id w Hf Hp) as (w1 & t & E & Hd & Hf1).
  eexists _, w1. rewrite E. split; [reflexivity|]. split; [reflexivity|].
  split; [rewrite Hd; reflexivity|].
  destruct (get_player_absent player_id w1) as (w2 & E2 & _).
  - rewrite Hd. apply filtered_out_player.
  - rewrite Hf1. reflexivity.
  - rewrite E2. reflexivity.
Qed.

Lemma deleted_player_not_found_witness :
  faults (quiet one_match) = []
  ∧ player_exists 1 (disk (quiet one_match))
  ∧ ∃ r w1,
      (delete_player 1 (quiet one_match)).1 = (Done r, w1)
      ∧ status r = 204
      ∧ players (disk w1) =
          List.filter (λ p, negb (p_id p =? 1)) (players one_match)
      ∧ (get_player 1 w1).1.1 = Done (jsonify (message "Player not found") 404).
Proof.
  assert (H : player_exists 1 (disk (quiet one_match))).
  { exists rahul_row. split; [left|]; reflexivity. }
  split; [reflexivity|]. split; [exact H|].
  exact (deleted_player_not_found 1 (quiet one_match) eq_refl H).
Defined.

(** X10. In a store without faults, DELETE /matches/{id} of an existing
    match answers 204, removes every match row of that id and nothing else
    from [matches], leaves [players] and both counters as they were, and
    closes its connection. *)
Theorem delete_match_removes_that_row (match_id : Z) (w : world) :
  faults w = [] →
  match_exists match_id (disk w) →
  ∃ r w' t,
    delete_match match_id w = (Done r, w', t)
    ∧ status r = 204
    ∧ disk w' =
        {| players := players (disk w);
           matches := List.filter (λ m, negb (m_id m =? match_id)) (matches (disk w));
           seq_players := seq_players (disk w);
           seq_matches := seq_matches (disk w) |}
    ∧ ¬ match_exists match_id (disk w').
Proof.
  intros Hf Hm. destruct (some_match_rows _ _ Hm) as (m & rest & Hrows & _).
  unfold delete_match. unfold_monad. run. rewrite Hf. run.
  unfold count_matches. rewrite Hrows. cbn [length]. rewrite of_nat_S_eqb. run.
  eexists _, _, _. split; [reflexivity|]. split; [reflexivity|].
  split; [reflexivity|].
  intros (x & Hin & E). cbn in Hin. apply filter_In in Hin.
  destruct Hin as [_ Hin]. apply negb_true_iff, Z.eqb_neq in Hin. contradiction.
Qed.

Lemma delete_match_removes_that_row_witness :
  faults (quiet one_match) = []
  ∧ match_exists 1 (disk (quiet one_match))
  ∧ ∃ r w' t,
      delete_match 1 (quiet one_match) = (Done r, w', t)
      ∧ status r = 204
      ∧ disk w' =
          {| players := [rahul_row];
             matches := List.filter (λ m, negb (m_id m =? 1)) [innings_row];
             seq_players := 1;
             seq_matches := 1 |}
      ∧ ¬ match_exists 1 (disk w').
Proof.
  assert (H : match_exists 1 (disk (quiet one_match))).
  { exists innings_row. split; [left|]; reflexivity. }
  split; [reflexivity|]. split; [exact H|].
  exact (delete_match_removes_that_row 1 (quiet one_match) eq_refl H).
Defined.

(** ** Updating a player *)

Lemma map_set_player name role bs bw id l :
  map (set_player name role bs bw id) l =
  map (λ p, if p_id p =? id
            then {| p_id := id; p_name := name; p_role := role;
                    p_batting_style := bs; p_bowling_style := bw |}
            else p) l.
Proof.
  apply map_ext. intros p. unfold set_player.
  destruct (p_id p =? id) eqn:E; [|reflexivity].
  apply Z.eqb_eq in E. rewrite E. reflexivity.
Qed.

(** X11. In a store without faults, PUT /players/{id} on an existing player,
    with a body whose four fields are strings or null and whose name is not
    null, answers 200 with the row as stored. The view leaves the test of the
    name to the store, so the empty string is accepted here although POST
    /players refuses it. All four fields are replaced at once: a field the
    body omits becomes NULL. The players table afterwards is the one before
    with each row of that id replaced and every other row in its place; the
    matches table is as before. *)
Theorem update_player_replaces_all_fields (player_id : Z)
    (data : gmap string pyval) (w : world) :
  faults w = [] →
  typed player_affinities data = true →
  player_exists player_id (disk w) →
  get data "name" ≠ PNone →
  ∃ w' t,
    update_player player_id data w =
      (Done (jsonify (JObj (dict (PlayerRow (new_player player_id data)))) 200),
       w', t)
    ∧ players (disk w') =
        map (λ p, if p_id p =? player_id then new_player player_id data else p)
            (players (disk w))
    ∧ (∀ k, k ∈ ["role"; "batting_style"; "bowling_style"] → data !! k = None →
            column k (player_columns (new_player player_id data)) = Some VNull)
    ∧ matches (disk w') = matches (disk w).
Proof.
  intros Hf _ Hp Hn. destruct (some_player_rows _ _ Hp) as (p & rest & Hrows & _).
  assert (Hnull : is_null (bind (get data "name")) = false).
  { destruct (get data "name"); try reflexivity. contradiction. }
  unfold update_player. unfold_monad. run. rewrite Hf. run.
  rewrite Hnull, andb_false_r. run.
  unfold count_players. rewrite Hrows. cbn [length]. rewrite of_nat_S_eqb. run.
  rewrite filter_set_player, Hrows. run.
  eexists _, _. split; [reflexivity|]. split; [|split].
  - cbn. apply map_set_player.
  - intros k Hk Hd. unfold new_player, get.
    rewrite !elem_of_cons in Hk.
    destruct Hk as [->|[->|[->|Hk]]]; [| | |inversion Hk]; cbn; rewrite Hd;
      reflexivity.
  - reflexivity.
Qed.

Lemma update_player_replaces_all_fields_witness :
  let body : gmap string pyval := {[ "name" := PStr EmptyString ]} in
  faults (quiet one_player) = []
  ∧ typed player_affinities body = true
  ∧ player_exists 1 (disk (quiet one_player))
  ∧ get body "name" ≠ PNone
  ∧ ∃ w' t,
      update_player 1 body (quiet one_player) =
        (Done (jsonify (JObj (dict (PlayerRow (new_player 1 body)))) 200), w', t)
      ∧ players (disk w') =
          map (λ p, if p_id p =? 1 then new_player 1 body else p)
              (players one_player)
      ∧ (∀ k, k ∈ ["role"; "batting_style"; "bowling_style"] →
              body !! k = None →
              column k (player_columns (new_player 1 body)) = Some VNull)
      ∧ matches (disk w') = matches one_player.
Proof.
  intros body.
  assert (Ht : typed player_affinities body = true) by reflexivity.
  assert (H : player_exists 1 (disk (quiet one_player))).
  { exists rahul_row. split; [left|]; reflexivity. }
  assert (Hn : get body "name" ≠ PNone) by (intros N; discriminate N).
  split; [reflexivity|]. split; [exact Ht|]. split; [exact H|]. split; [exact Hn|].
  exact (update_player_replaces_all_fields 1 body (quiet one_player) eq_refl Ht H Hn).
Defined.

(** ** Creating a match *)

(** X12. In a store without faults and with room for a rowid, POST
    /players/{id}/matches under an existing player, with a body whose settable
    fields hold values their columns keep as bound (booleans and integers in
    range in the integer columns, a real in overs, or null), answers 201 with
    the columns of the row it stored: a fresh id, the player_id of the URL,
    and for every settable field the body mentions the body's value, a null
    included (the default applies only to an absent key). The row is appended
    to [matches]; [players] is as before. *)
Theorem add_match_stores_given_fields (player_id : Z) (data : gmap string pyval)
    (w : world) :
  faults w = [] →
  typed match_affinities data = true →
  player_exists player_id (disk w) →
  room_for_match (disk w) →
  let id := Z.max (seq_matches (disk w)) (largest (match_ids (disk w))) + 1 in
  let m := new_match id player_id data in
  ∃ w' t,
    add_match_for_player player_id data w =
      (Done (jsonify (JObj (dict (MatchRow m))) 201), w', t)
    ∧ matches (disk w') = matches (disk w) ++ [m]
    ∧ players (disk w') = players (disk w)
    ∧ ∀ k v, In k settable → data !! k = Some v →
             column k (match_columns m) = Some (bind v).
Proof.
  intros Hf _ Hp Hroom id m.
  destruct (some_player_rows _ _ Hp) as (p & ps & Hps & _).
  unfold add_match_for_player. unfold_monad. run. rewrite Hf. run.
  rewrite Hps. run. rewrite (room_next_rowid _ Hroom). run.
  rewrite filter_fresh_match;
    [|reflexivity
     |intros x Hx; apply (in_map m_id) in Hx; apply largest_ge in Hx; lia].
  run. eexists _, _. split; [reflexivity|].
  split; [reflexivity|]. split; [reflexivity|].
  intros k v Hk Hd. unfold get_or. cbn in Hk.
  repeat (destruct Hk as [Hk|Hk]; [subst k; rewrite Hd; reflexivity|]).
  destruct Hk.
Qed.

Lemma add_match_stores_given_fields_witness :
  faults (quiet one_player) = []
  ∧ typed match_affinities innings = true
  ∧ player_exists 1 (disk (quiet one_player))
  ∧ room_for_match (disk (quiet one_player))
  ∧ ∃ w' t,
      add_match_for_player 1 innings (quiet one_player) =
        (Done (jsonify (JObj (dict (MatchRow (new_match 1 1 innings)))) 201), w', t)
      ∧ matches (disk w') = [] ++ [new_match 1 1 innings]
      ∧ players (disk w') = [rahul_row]
      ∧ ∀ k v, In k settable → innings !! k = Some v →
               column k (match_columns (new_match 1 1 innings)) = Some (bind v).
Proof.
  assert (Ht : typed match_affinities innings = true) by reflexivity.
  assert (H : player_exists 1 (disk (quiet one_player))).
  { exists rahul_row. split; [left|]; reflexivity. }
  assert (Hr : room_for_match (disk (quiet one_player))) by reflexivity.
  split; [reflexivity|]. split; [exact Ht|]. split; [exact H|]. split; [exact Hr|].
  exact (add_match_stores_given_fields 1 innings (quiet one_player) eq_refl Ht H Hr).
Defined.

Lemma rows_give_player id d p l :
  List.filter (λ p, p_id p =? id) (players d) = p :: l → player_exists id d.
Proof.
  intros H.
  assert (Hin : In p (List.filter (λ p, p_id p =? id) (players d)))
    by (rewrite H; left; reflexivity).
  apply filter_In in Hin. exists p. split; [apply Hin|]. apply Z.eqb_eq. apply Hin.
Qed.

Lemma head_gives_player {B} (g : player_row → B) id d r :
  head (map g (List.filter (λ p, p_id p =? id) (players d))) = Some r →
  player_exists id d.
Proof.
  destruct (List.filter _ (players d)) as [|p l] eqn:E; [discriminate|].
  intros _. eapply rows_give_player. exact E.
Qed.

(** X13. Whatever the body, the store and the faults, POST
    /players/{id}/matches either leaves [matches] as it was or appends one
    row to it, and it appends only when a player row of that id is in the
    store, giving the new row that player_id. *)
Theorem new_match_has_player (player_id : Z) (data : gmap string pyval)
    (w : world) :
  let w' := (add_match_for_player player_id data w).1.2 in
  matches (disk w') = matches (disk w)
  ∨ (player_exists player_id (disk w)
     ∧ ∃ m, matches (disk w') = matches (disk w) ++ [m]
            ∧ m_player_id m = player_id).
Proof.
  unfold add_match_for_player. unfold_monad.
  explore; try (left; reflexivity).
  all: right;
    (split; [first [eapply head_gives_player; eassumption
                   |eapply rows_give_player; eassumption]|]);
    eexists; split; reflexivity.
Qed.

(** ** What the routes leave alone *)

(** X14. Whatever faults await, a route changes at most its own table: the
    reads leave the file as it was, the routes on players leave [matches] and
    its counter, the routes on matches leave [players] and its counter. In
    particular DELETE /players/{id} removes no match row. *)
Theorem routes_touch_one_table (req : request) (w : world) :
  untouched req (disk w) (disk (route req w).1.2).
Proof.
  destruct req; cbn [route untouched]; unfold_views; unfold_monad.
  2: {
    run. case_fault; run; [reflexivity|].
    match goal with
    | |- context [with_matches ?c ?l ?w0] =>
        destruct (with_matches_reads c
                    {| foreign_keys := default_foreign_keys; pending := None |}
                    l w0 ltac:(open_handle))
          as (r1 & w1 & t1 & -> & Hd & _ & _)
    end.
    destruct r1; run; exact Hd. }
  all: explore; try reflexivity; split; reflexivity.
Qed.

(** ** What a store keeps over a run *)

Lemma NoDup_append_above (l : list Z) (a : Z) :
  NoDup l → (∀ x, In x l → x < a) → NoDup (l ++ [a]).
Proof.
  induction 1 as [|x l Hx Hl IH]; intros Hlt; cbn.
  - constructor; [intros H; inversion H | constructor].
  - constructor.
    + rewrite list_elem_of_In, in_app_iff. intros [H|[H|[]]].
      * apply Hx, list_elem_of_In, H.
      * specialize (Hlt x (or_introl eq_refl)). lia.
    + apply IH. intros y Hy. apply Hlt. right. exact Hy.
Qed.

Lemma NoDup_map_filter {A} (g : A → Z) (f : A → bool) (l : list A) :
  NoDup (map g l) → NoDup (map g (List.filter f l)).
Proof.
  induction l as [|a l IH]; cbn; intros H; [constructor|].
  inversion H as [|x l' Hx Hl]; subst.
  destruct (f a); cbn; [constructor|]; auto.
  rewrite list_elem_of_In. intros Hin. apply Hx, list_elem_of_In.
  eapply in_map_filter. exact Hin.
Qed.

Lemma in_set_match stats id l m :
  In m (map (set_match stats id) l) →
  ∃ m0, In m0 l ∧ m_player_id m = m_player_id m0.
Proof.
  rewrite in_map_iff. intros (m0 & <- & Hin). exists m0. split; [exact Hin|].
  unfold set_match. destruct (m_id m0 =? id); reflexivity.
Qed.

Lemma run_statement_well_formed fk d s cur d' :
  issued d s →
  run_statement fk d s = Ok (cur, d') →
  well_formed d → well_formed d'.
Proof.
  intros Hi Hrun (Hb & Np & Nm & Ho).
  pose proof (run_statement_ids _ _ _ _ _ Hrun) as Hstep.
  split; [eapply ids_step_bounded; eassumption|].
  destruct Hstep as (Sp & _).
  unfold player_ids, match_ids in *.
  destruct s; cbn [run_statement] in Hrun.
  all: try (injection Hrun as <- <-; repeat split; assumption).
  - destruct (next_rowid _ _) as [rid|] eqn:Hid; [|discriminate].
    destruct (is_null name); [discriminate|]. injection Hrun as <- <-.
    apply next_rowid_above in Hid. destruct Hid as [Hs Hl]. cbn in *.
    split; [|split; [exact Nm|]].
    + rewrite map_app. cbn. apply NoDup_append_above; assumption.
    + intros m Hm. specialize (Ho m Hm). lia.
  - destruct (_ && _); [discriminate|]. injection Hrun as <- <-. cbn.
    rewrite map_set_player_ids. repeat split; assumption.
  - injection Hrun as <- <-. cbn.
    split; [apply NoDup_map_filter; exact Np|].
    split.
    + destruct fk; [apply NoDup_map_filter|]; exact Nm.
    + intros m Hm. apply Ho. destruct fk; [apply filter_In in Hm; apply Hm | exact Hm].
  - destruct (next_rowid _ _) as [rid|] eqn:Hid; [|discriminate].
    destruct (_ && _); [discriminate|]. injection Hrun as <- <-.
    apply next_rowid_above in Hid. destruct Hid as [Hs Hl]. cbn in *.
    split; [exact Np|]. split.
    + rewrite map_app. cbn. apply NoDup_append_above; assumption.
    + intros m. rewrite in_app_iff. intros [Hm|[<-|[]]]; [apply Ho; exact Hm|].
      cbn. destruct Hi as (p & Hp & <-). apply Hb. apply in_map. exact Hp.
  - injection Hrun as <- <-. cbn.
    rewrite map_set_match_ids. split; [exact Np|]. split; [exact Nm|].
    intros m Hm. apply in_set_match in Hm. destruct Hm as (m0 & Hm0 & ->).
    apply Ho. exact Hm0.
  - injection Hrun as <- <-. cbn.
    split; [exact Np|]. split; [apply NoDup_map_filter; exact Nm|].
    intros m Hm. apply Ho. apply filter_In in Hm. apply Hm.
Qed.

(** A request leaves the file as it was, or as one statement that the views
    issue made it. *)
Lemma route_issued req w :
  let '(_, w', _) := route req w in
  disk w' = disk w
  ∨ ∃ s cur,
      issued (disk w) s
      ∧ run_statement default_foreign_keys (disk w) s = Ok (cur, disk w').
Proof.
  destruct req; cbn [route]; unfold_views; unfold_monad.
  - explore; try (left; reflexivity).
    all: right; eexists (InsertPlayer _ _ _ _), _; (split; [exact I|]); cbn;
      match goal with H : next_rowid _ _ = _ |- _ => rewrite H end;
      match goal with H : is_null _ = _ |- _ => rewrite H end; reflexivity.
  - run. case_fault; run; [left; reflexivity|].
    match goal with
    | |- context [with_matches ?c ?l ?w0] =>
        destruct (with_matches_reads c
                    {| foreign_keys := default_foreign_keys; pending := None |}
                    l w0 ltac:(open_handle))
          as (r1 & w1 & t1 & -> & Hd & _ & _)
    end.
    destruct r1; run; left; exact Hd.
  - explore; left; reflexivity.
  - explore; try (left; reflexivity).
    all: right; eexists (UpdatePlayer _ _ _ _ _), _; (split; [exact I|]); cbn;
      match goal with H : (_ && _) = _ |- _ => rewrite H end; reflexivity.
  - explore; try (left; reflexivity).
    all: right; eexists (DeletePlayer _), _; split; [exact I | reflexivity].
  - explore; try (left; reflexivity).
    all: right; eexists (InsertMatch _ _), _;
      (split; [first [eapply head_gives_player; eassumption
                     |eapply rows_give_player; eassumption]|]); cbn;
      match goal with H : next_rowid _ _ = _ |- _ => rewrite H end; reflexivity.
  - explore; try (left; reflexivity).
    all: right; eexists (UpdateMatch _ _), _; split; [exact I | reflexivity].
  - explore; try (left; reflexivity).
    all: right; eexists (DeleteMatch _), _; split; [exact I | reflexivity].
Qed.

Lemma route_well_formed req w :
  well_formed (disk w) → well_formed (disk (route req w).1.2).
Proof.
  intros Hwf. pose proof (route_issued req w) as H.
  destruct (route req w) as [[r w'] t]. cbn.
  destruct H as [-> | (s & cur & Hi & Hrun)]; [exact Hwf|].
  eapply run_statement_well_formed; eassumption.
Qed.

(** X15. Over any run of requests and faults the store keeps its shape: in
    each table the ids are unique and lie under the AUTOINCREMENT counter,
    and no match row names a player id above the players counter (so no
    match can belong to a player created later). *)
Theorem requests_keep_store_well_formed (reqs : list request) (w : world) :
  well_formed (disk w) → well_formed (disk (serve reqs w)).
Proof.
  revert w. induction reqs as [|req reqs IH]; intros w H; [exact H|].
  cbn [serve]. apply IH, route_well_formed, H.
Qed.

Lemma requests_keep_store_well_formed_witness :
  let reqs := [POST_players rahul; POST_player_matches 1 innings; DELETE_player 1] in
  well_formed (disk (quiet empty_db))
  ∧ well_formed (disk (serve reqs (quiet empty_db))).
Proof.
  intros reqs.
  assert (H : well_formed (disk (quiet empty_db))).
  { split; [split; intros x []|]. split; [constructor|]. split; [constructor|].
    intros m []. }
  split; [exact H|].
  exact (requests_keep_store_well_formed reqs (quiet empty_db) H).
Defined.

(** ** A player just created *)

Lemma no_matches_above d id :
  (∀ m, In m (matches d) → m_player_id m < id) →
  List.filter (λ m, m_player_id m =? id) (matches d) = [].
Proof.
  intros Ho. apply filter_none. intros m Hm.
  apply Z.eqb_neq. specialize (Ho m Hm). lia.
Qed.

(** X16. In a well-formed store without faults and with room for a rowid,
    after a POST /players whose name Python takes for true and whose four
    fields are strings or null, the GET /players/{id} on the id the POST
    returned answers 200 with the new row and an empty list of matches. *)
Theorem created_player_has_no_matches (data : gmap string pyval) (w : world) :
  faults w = [] →
  typed player_affinities data = true →
  truthy (get data "name") = true →
  room_for_player (disk w) →
  well_formed (disk w) →
  let id := Z.max (seq_players (disk w)) (largest (player_ids (disk w))) + 1 in
  ∃ w1,
    (add_player data w).1 =
      (Done (jsonify (JObj (dict (PlayerRow (new_player id data)))) 201), w1)
    ∧ (get_player id w1).1.1 =
        Done (jsonify
                (JObj (dict (PlayerRow (new_player id data)) ++ [("matches", JArr [])]))
                200).
Proof.
  intros Hf _ Hn Hroom (Hb & _ & _ & Ho) id.
  destruct (add_player_runs data w Hf Hn Hroom) as (w1 & t & E & Hd & Hf1).
  exists w1. rewrite E. split; [reflexivity|].
  assert (Hrows : List.filter (λ p, p_id p =? id) (players (disk w1)) =
                  [new_player id data]).
  { rewrite Hd. cbn [players]. apply filter_fresh_player; [reflexivity|].
    intros x Hx. apply (in_map p_id) in Hx. apply largest_ge in Hx.
    subst id. unfold player_ids. lia. }
  destruct (get_player_present id w1 _ _ Hf1 Hrows) as (w2 & E2 & _).
  rewrite E2. cbn [fst]. unfold player_with_matches, matches_of.
  cbn [p_id new_player]. rewrite no_matches_above; [reflexivity|].
  rewrite Hd. cbn [matches]. intros m Hm. specialize (Ho m Hm). subst id. lia.
Qed.

Lemma created_player_has_no_matches_witness :
  faults (quiet empty_db) = []
  ∧ typed player_affinities rahul = true
  ∧ truthy (get rahul "name") = true
  ∧ room_for_player (disk (quiet empty_db))
  ∧ well_formed (disk (quiet empty_db))
  ∧ ∃ w1,
      (add_player rahul (quiet empty_db)).1 =
        (Done (jsonify (JObj (dict (PlayerRow (new_player 1 rahul)))) 201), w1)
      ∧ (get_player 1 w1).1.1 =
          Done (jsonify
                  (JObj (dict (PlayerRow (new_player 1 rahul))
                         ++ [("matches", JArr [])])) 200).
Proof.
  assert (Ht : typed player_affinities rahul = true) by reflexivity.
  assert (Hn : truthy (get rahul "name") = true) by reflexivity.
  assert (Hr : room_for_player (disk (quiet empty_db))) by reflexivity.
  assert (H : well_formed (disk (quiet empty_db))).
  { split; [split; intros x []|]. split; [constructor|]. split; [constructor|].
    intros m []. }
  split; [reflexivity|]. split; [exact Ht|]. split; [exact Hn|].
  split; [exact Hr|]. split; [exact H|].
  exact (created_player_has_no_matches rahul (quiet empty_db) eq_refl Ht Hn Hr H).
Defined.

(** ** A failure after the commit *)

(** X17. POST /players reads the new row back after it has committed, on a
    second connection and inside the same try block. For a body whose four
    fields are strings or null and whose name Python takes for true: when the
    INSERT and the commit go through and that read fails with a storage
    error, the view answers 500 with the error although the player row is in
    the file; the rollback it then calls has nothing left to undo. *)
Theorem add_player_stored_despite_500 (data : gmap string pyval) (w : world)
    (msg : string) :
  typed player_affinities data = true →
  truthy (get data "name") = true →
  room_for_player (disk w) →
  fault_of (faults w) = None →
  fault_of (tail (faults w)) = None →
  fault_of (tail (tail (faults w))) = Some msg →
  let id := Z.max (seq_players (disk w)) (largest (player_ids (disk w))) + 1 in
  ∃ w',
    add_player data w =
      (Done (jsonify (error msg) 500), w',
       [Connect (next_handle w);
        Execute (next_handle w)
          (InsertPlayer (bind (get data "name")) (bind (get data "role"))
             (bind (get data "batting_style")) (bind (get data "bowling_style")))
          None;
        Commit (next_handle w) None;
        Connect (S (next_handle w));
        Execute (S (next_handle w)) (SelectPlayerById id) (Some msg);
        Rollback (next_handle w);
        Close (next_handle w)])
    ∧ players (disk w') = players (disk w) ++ [new_player id data].
Proof.
  intros _ Hn Hroom F1 F2 F3 id. unfold add_player. rewrite Hn. unfold_monad. run.
  rewrite F1. run. rewrite (room_next_player _ Hroom). run.
  rewrite (truthy_not_null _ Hn). run. rewrite F2. run. rewrite F3. run.
  eexists. split; reflexivity.
Qed.

Lemma add_player_stored_despite_500_witness :
  let w := {| disk := empty_db; conns := ∅; next_handle := 0;
              faults := [None; None; Some "disk I/O error"] |} in
  typed player_affinities rahul = true
  ∧ truthy (get rahul "name") = true
  ∧ room_for_player (disk w)
  ∧ fault_of (faults w) = None
  ∧ fault_of (tail (faults w)) = None
  ∧ fault_of (tail (tail (faults w))) = Some "disk I/O error"
  ∧ ∃ w',
      add_player rahul w =
        (Done (jsonify (error "disk I/O error") 500), w',
         [Connect 0;
          Execute 0 (InsertPlayer (bind (get rahul "name")) (bind (get rahul "role"))
                       (bind (get rahul "batting_style"))
                       (bind (get rahul "bowling_style"))) None;
          Commit 0 None;
          Connect 1;
          Execute 1 (SelectPlayerById 1) (Some "disk I/O error");
          Rollback 0;
          Close 0])
      ∧ players (disk w') = [] ++ [new_player 1 rahul].
Proof.
  intros w.
  assert (Ht : typed player_affinities rahul = true) by reflexivity.
  assert (Hn : truthy (get rahul "name") = true) by reflexivity.
  assert (Hr : room_for_player (disk w)) by reflexivity.
  split; [exact Ht|]. split; [exact Hn|]. split; [exact Hr|]. split; [reflexivity|].
  split; [reflexivity|]. split; [reflexivity|].
  exact (add_player_stored_despite_500 rahul w "disk I/O error" Ht Hn Hr
           eq_refl eq_refl eq_refl).
Defined.
